(* ===== verification/_CoqProject ===== *)
-Q . S2P
Prelude.v
JsValue.v
WebHeaders.v
Interface.v
Adapters.v
Directives.v
Loader.v
Snelm.v
Lifecycle.v
Scenarios.v
