(* ===== verification/Prelude.v ===== *)
(** * Snelm: a verification development

    Snelm (src/mod.ts) applies HTTP security-header directives to the
    response of a Deno web framework.  [new Snelm(name, options)] records a
    framework name and an options object; [await init()] imports the
    adapter class [src/frameworks/<name>.ts]; [snelm(request, response)]
    wraps the two native objects in an adapter instance, runs twelve
    directives in a fixed order, each unless its option is [null], and
    returns the native response, mutated in place.  Each directive talks to
    the response only through the four methods of the adapter interface
    (src/frameworks/interface.ts).

    ** Layout (in dependency order)

    - Prelude.v (this file): the errors the code throws ([js_error]), the
      state and exception monad [jsm] with its notation in [js_scope], the
      string helpers of header normalisation, the hint databases [snelm]
      and [snelm_rw] and the tactic [jsm_unfold].
    - JsValue.v: the JavaScript values of the untyped [options]
      ([js_value]), truthiness, property read, [||], [!== null], [String].
    - WebHeaders.v: the platform's [Headers] class that oak's and pogo's
      natives carry (get/set/delete, lower-cased names, trimmed values,
      [TypeError] on invalid names, values or an immutable guard).  A model
      of the Deno runtime written from the Fetch standard, not of the
      repository.
    - Interface.v: interface.ts.  Native objects ([native]), the adapter
      instance ([adapted]: [_request], [_response]), the record of the
      four operations [RequestResponseInterface], and the class
      [HeaderContract]: the abstract specification an adapter promises (a
      refinement of a map of response headers up to key canonicalisation
      and value normalisation).  [run_ops_refines]: any sequence of
      accepted operations refines the abstract sequence, and a sequence
      that throws has run an accepted prefix and stopped at the first
      rejected operation ([run_ops_error]).
    - Adapters.v: [Module Oak] (oak.ts) and [Module Pogo] (pogo.ts), one
      definition per method; [Oak.oak_contract] and
      [Pogo.pogo_assign_contract] discharge [HeaderContract]; round trips
      for both, the behaviour of pogo's adapter on pogo's own
      [Headers]-based Response, where it breaks the contract, the
      [request]/[response] getters, and the request side
      ([getRequestHeader_lookup]).
    - Directives.v: [DnsPrefetchControl], [HidePoweredBy],
      [DontSniffMimetype] (src/deps/*/index.ts); each is shown to be one
      fixed header operation ([*_is_ops]) and its behaviour is proved for
      every adapter that satisfies the contract; the declared option
      types [DnsPrefetchControlOptions] and [HidePoweredByOptions] as
      records, with what the directives do on values of those types.
    - Loader.v: the dynamic import of [init]: the specifier built from the
      name, its parsing as a relative URL (tabs and newlines removed, the
      path cut at ['?'] or ['#'], ['/'] and ['\'] as separators, dot
      segments also in their ["%2e"] forms) and the repository's module
      table, src/tests included.
    - Snelm.v: the class ([Snelm], [new_Snelm], [init], [snelm]; each
      option read twice as lines 34-68 do), the registry of the twelve
      directives, the calls an invocation makes ([enabled]), the
      refinement theorem [snelm_refines], the error path
      [snelm_error_prefix], the bounds [snelm_ops_bounds], and
      [snelm_preserves] (what every directive keeps, every invocation
      keeps).
    - Lifecycle.v: [init] split at its [await] ([start_init],
      [resume_init]); a [world] (the object and its pending imports) and
      a transition function [step] over the events [CallInit],
      [SettleInit i] and [Invoke p] in any order; reachability [reach] and
      the all-orders settlement predicate [settles].
    - Scenarios.v: the specification's examples end to end on oak, and
      every configuration on pogo's own Response.

    ** What the theorems show

    - Refinement: an initialised [Snelm] with non-nullish options leaves
      the response headers as the abstract program [snelm_ops options]
      sets them, never touches the request, and returns the response
      ([snelm_refines]); a directive runs iff its option is not [null]
      ([directive_runs_iff]).
    - Directives: the header each sets or removes, with the value the
      options select, and the rejection path ([Directives.v, section
      Behaviour]); on inputs of the declared option types both
      configurable directives do what the types suggest, and the dns
      header value has its declared type ['on' | 'off'] on every input.
    - Adapters: round trips, pogo's defect on [Headers] responses, and the
      request side (oak case-insensitive, pogo by exact own property).
    - Errors: not initialised, [null] options, rejected import; in
      general, an invocation that throws has performed exactly a prefix of
      the abstract program and stopped at the first rejected header
      operation, with nothing rolled back ([snelm_error_prefix]).
    - Bounds: at most twelve directives and three header operations of
      the repository's directives per invocation, on three fixed names.
    - Lifecycle: with [init] not awaited, every interleaving keeps the
      invariant of the object ([reach_invariant]), pending imports settle
      in every order to what a sequential [init] gives
      ([pending_inits_settle]), an invocation before the settlement throws
      with no mutation ([invoke_before_settle]), and an invocation in any
      reachable world throws before any mutation or runs the name's
      adapter ([reach_invoke_safe]).
    - Loading: a name of plain characters loads
      [src/frameworks/<name>.ts] ([resolve_plain_name]); a name with
      [".."] segments and a trailing ['?'] reaches any file under src
      ([framework_name_is_a_path]).
    - pogo's own Response: no invocation with any options ever removes a
      header there ([pogo_never_removes_header], by the monad's
      [preserves] and [Snelm.snelm_preserves]).

    ** Assumptions, bounds, and what is not modelled

    - The nine directives whose source is not in the repository's sources
      are parameters ([Snelm.external_directives]); theorems about the
      whole invocation assume only that they succeed on supported natives
      and do not touch the three header names of the modelled directives
      ([ext_frame]); [noop_externals] satisfies it in the witnesses.  A
      crafted name can load one of their modules as the "adapter"; the
      model assumes constructing it throws [NotAFunction] before any
      mutation, which holds for the three directive modules in src.
    - There is no fuel: every definition is structurally recursive, and
      every loop of the code runs over the fixed registry.  The liveness
      of settlement is by induction on the number of pending imports,
      which each settlement decreases by one.
    - [init] is asynchronous.  Snelm.v treats a call that is awaited as
      one atomic step; Lifecycle.v splits it at its [await].  [snelm] is
      synchronous, so an invocation is one atomic event; it never writes
      the [Snelm] object.  Settlement of an import is a choice of the
      host: [settles] quantifies over every order.
    - Header values are strings: [hidePoweredBy] passes [String(setTo)],
      which is what [Headers.set] stores; a dictionary-style native whose
      [header] assigns would store the raw value.
    - Not modelled: the servers src/tests start when imported,
      percent-decoding of a module path before the file is read,
      inherited properties of JavaScript objects (bracket access is
      own-property lookup), getters on the options object, floating-point
      numbers other than integers and [NaN].

    ** Plan for the remaining work

    1. Deno [Headers] details: combined values of appended headers and the
       request guard (no code of the repository appends). *)

From stdpp Require Export base strings gmap pretty.
From Stdlib Require Export Ascii String ZArith.

Declare Scope js_scope.
Delimit Scope js_scope with js.

(** ** Errors

    The exceptions the modelled code can raise.  Every one of them is a
    JavaScript [TypeError] except the rejection of a dynamic [import]. *)

Inductive type_error :=
  | NotAFunction        (** [x.f(..)] where [x.f] is not callable *)
  | NotAConstructor     (** [new x(..)] where [x] is not a constructor *)
  | ReadOfNullish       (** [x.p] where [x] is [null] or [undefined] *)
  | InvalidHeaderName   (** [Headers] rejects a name that is not a token *)
  | InvalidHeaderValue  (** [Headers] rejects a value with NUL, CR or LF *)
  | ImmutableHeaders.   (** [Headers] with the immutable guard *)

Inductive js_error :=
  | TypeError (why : type_error)
  | ModuleNotFound (specifier : string).

#[export] Instance type_error_eq_dec : EqDecision type_error.
Proof. solve_decision. Defined.
#[export] Instance js_error_eq_dec : EqDecision js_error.
Proof. solve_decision. Defined.

(** ** A state and exception monad

    [jsm S A] runs on a state [S] (the native objects the code mutates in
    place) and returns a value or an exception; either way the state
    reached is returned, as a JavaScript heap survives a [throw]. *)

Definition jsm (S A : Type) : Type := S -> S * (js_error + A).

Section Monad.
Context {S : Type}.

Definition jret {A} (a : A) : jsm S A := fun s => (s, inr a).

Definition jbind {A B} (m : jsm S A) (k : A -> jsm S B) : jsm S B :=
  fun s => match m s with
           | (s', inr a) => k a s'
           | (s', inl e) => (s', inl e)
           end.

Definition jthrow {A} (e : js_error) : jsm S A := fun s => (s, inl e).

(** A pure computation that may throw. *)
Definition jlift {A} (r : js_error + A) : jsm S A := fun s => (s, r).

Definition jget : jsm S S := fun s => (s, inr s).
Definition jput (s' : S) : jsm S unit := fun _ => (s', inr tt).

Lemma jbind_ret_l {A B} (a : A) (k : A -> jsm S B) :
  jbind (jret a) k = k a.
Proof. reflexivity. Qed.

Lemma jbind_ret_r {A} (m : jsm S A) s : jbind m jret s = m s.
Proof. unfold jbind, jret. by destruct (m s) as [? []]. Qed.

Lemma jbind_ret_unit (m : jsm S unit) s : jbind m (fun _ => jret tt) s = m s.
Proof. unfold jbind, jret. by destruct (m s) as [? [|[]]]. Qed.

Lemma jbind_assoc {A B C} (m : jsm S A) (k : A -> jsm S B) (h : B -> jsm S C) s :
  jbind (jbind m k) h s = jbind m (fun a => jbind (k a) h) s.
Proof. unfold jbind. by destruct (m s) as [? []]. Qed.

Lemma jbind_ok {A B} (m : jsm S A) (k : A -> jsm S B) s s' a :
  m s = (s', inr a) -> jbind m k s = k a s'.
Proof. unfold jbind. by intros ->. Qed.

Lemma jbind_err {A B} (m : jsm S A) (k : A -> jsm S B) s s' e :
  m s = (s', inl e) -> jbind m k s = (s', inl e).
Proof. unfold jbind. by intros ->. Qed.

(** Running a computation that has a given outcome on every state where
    a predicate holds. *)
Definition preserves {A} (P : S -> Prop) (m : jsm S A) : Prop :=
  forall s, P s -> P (fst (m s)).

Lemma preserves_bind {A B} (P : S -> Prop) (m : jsm S A) (k : A -> jsm S B) :
  preserves P m -> (forall a, preserves P (k a)) -> preserves P (jbind m k).
Proof.
  intros Hm Hk s Hs. unfold jbind.
  specialize (Hm s Hs). destruct (m s) as [s' [e|a]]; simpl in *; [done | by apply Hk].
Qed.

Lemma preserves_ret {A} P (a : A) : preserves P (jret a).
Proof. by intros s. Qed.

Lemma preserves_lift {A} P (r : js_error + A) : preserves P (jlift r).
Proof. by intros s. Qed.
End Monad.

Arguments jget {S}.

Notation "x <- m ;; k" := (jbind m (fun x => k))
  (at level 100, m at next level, right associativity) : js_scope.
Notation "m ;; k" := (jbind m (fun _ : unit => k))
  (at level 100, right associativity) : js_scope.

(** ** Strings and characters *)

Definition ascii_lower (c : ascii) : ascii :=
  let n := nat_of_ascii c in
  if (65 <=? n) && (n <=? 90) then ascii_of_nat (n + 32) else c.

(** Byte-wise ASCII lower-casing, as [Headers] normalises names. *)
Fixpoint lower (s : string) : string :=
  match s with
  | EmptyString => EmptyString
  | String c s' => String (ascii_lower c) (lower s')
  end.

(** HTTP whitespace: tab, line feed, carriage return, space. *)
Definition http_ws (c : ascii) : bool :=
  let n := nat_of_ascii c in
  (n =? 9) || (n =? 10) || (n =? 13) || (n =? 32).

Fixpoint trim_start (s : string) : string :=
  match s with
  | EmptyString => EmptyString
  | String c s' => if http_ws c then trim_start s' else s
  end.

Fixpoint trim_end (s : string) : string :=
  match s with
  | EmptyString => EmptyString
  | String c s' =>
      let r := trim_end s' in
      if http_ws c && String.eqb r EmptyString then EmptyString else String c r
  end.

(** Removal of leading and trailing HTTP whitespace. *)
Definition trim_http (s : string) : string := trim_end (trim_start s).

Fixpoint forall_chars (p : ascii -> bool) (s : string) : bool :=
  match s with
  | EmptyString => true
  | String c s' => p c && forall_chars p s'
  end.

Lemma ascii_lower_idem c : ascii_lower (ascii_lower c) = ascii_lower c.
Proof. destruct c as [[] [] [] [] [] [] [] []]; reflexivity. Qed.

Lemma lower_idem s : lower (lower s) = lower s.
Proof. induction s as [|c s IH]; simpl; [done|]. by rewrite ascii_lower_idem, IH. Qed.

Lemma string_app_nil_r s : s +:+ EmptyString = s.
Proof.
  induction s as [|c s IH]; [done|].
  change (String c (s +:+ EmptyString) = String c s). by rewrite IH.
Qed.

Lemma string_app_assoc s1 s2 s3 : s1 +:+ (s2 +:+ s3) = (s1 +:+ s2) +:+ s3.
Proof.
  induction s1 as [|c s1 IH]; [done|].
  change (String c (s1 +:+ (s2 +:+ s3)) = String c ((s1 +:+ s2) +:+ s3)). by rewrite IH.
Qed.

Lemma string_length_app s1 s2 : String.length (s1 +:+ s2) = String.length s1 + String.length s2.
Proof.
  induction s1 as [|c s1 IH]; [done|].
  change (S (String.length (s1 +:+ s2)) = S (String.length s1 + String.length s2)). by rewrite IH.
Qed.

Lemma forall_chars_app p s1 s2 :
  forall_chars p (s1 +:+ s2) = forall_chars p s1 && forall_chars p s2.
Proof.
  induction s1 as [|c s1 IH]; simpl; [done|]. rewrite IH. by destruct (p c).
Qed.

(** ** Automation *)

Lemma forall_chars_impl (p q : ascii -> bool) s :
  (forall c, p c = true -> q c = true) -> forall_chars p s = true -> forall_chars q s = true.
Proof.
  intros Hpq. induction s as [|c s IH]; [done|]. simpl.
  intros [Hc Hs]%andb_prop. by rewrite Hpq, IH.
Qed.

(** Filtering is monotone for [sublist]. *)
Lemma filter_sublist_mono {A} (P : A -> Prop) `{!forall x, Decision (P x)} l1 l2 :
  sublist l1 l2 -> sublist (filter P l1) (filter P l2).
Proof.
  induction 1; rewrite ?filter_nil, ?filter_cons; try case_decide;
    auto using sublist_nil, sublist_skip, sublist_cons.
Qed.

Create HintDb snelm discriminated.
Create Rewrite HintDb snelm_rw.

#[export] Hint Resolve preserves_ret preserves_lift preserves_bind : snelm.
#[export] Hint Rewrite @jbind_ret_l lower_idem : snelm_rw.

(** Unfold the monad's plumbing in a goal about a concrete run. *)
Ltac jsm_unfold :=
  unfold jbind, jret, jthrow, jlift, jget, jput in *; simpl in *.
