(* ===== verification/JsValue.v ===== *)
(** * JavaScript values as the code inspects them

    The options of src/mod.ts are typed [any]: [Snelm] reads
    [this._options.<directive>] and compares it with [null]; the directives
    test values for truthiness ([options && options.allow], [if (setTo)])
    and destructure with defaults ([const { setTo = null } = options || {}]).
    This file gives the values and the three operations of the language the
    code relies on: truthiness, property read, and [String(v)].

    Approximations.  Objects are plain objects given by their own
    enumerable properties, first binding wins; properties inherited from
    [Object.prototype] or from the prototypes of primitives are not
    modelled: the code reads only the fixed keys [allow], [setTo] and the
    twelve directive names, none of which is inherited.  Numbers are
    integers plus [NaN]; the code never does arithmetic on them. *)

From S2P Require Import Prelude.

#[warnings="-register-all"]
Inductive js_value :=
  | JUndefined
  | JNull
  | JBool (b : bool)
  | JNumber (n : Z)
  | JNaN
  | JString (s : string)
  | JObject (props : list (string * js_value)).

(** ToBoolean: [undefined], [null], [false], [0], [NaN] and [""] are the
    falsy values. *)
Definition js_truthy (v : js_value) : bool :=
  match v with
  | JUndefined | JNull | JNaN => false
  | JBool b => b
  | JNumber n => negb (Z.eqb n 0)
  | JString s => negb (String.eqb s EmptyString)
  | JObject _ => true
  end.

Fixpoint assoc_lookup (p : string) (ps : list (string * js_value)) : option js_value :=
  match ps with
  | [] => None
  | (q, v) :: ps' => if String.eqb p q then Some v else assoc_lookup p ps'
  end.

(** [v.p]: a [TypeError] on [null] and [undefined], [undefined] for an
    absent property and for the properties of primitives the code reads. *)
Definition js_get (v : js_value) (p : string) : js_error + js_value :=
  match v with
  | JUndefined | JNull => inl (TypeError ReadOfNullish)
  | JObject ps => inr (default JUndefined (assoc_lookup p ps))
  | _ => inr JUndefined
  end.

(** [a || b] and [a && b] return one of their operands. *)
Definition js_or (a b : js_value) : js_value := if js_truthy a then a else b.

(** [x !== null]. *)
Definition js_not_null (v : js_value) : bool :=
  match v with JNull => false | _ => true end.

(** [String(v)] on the values the code can pass as a header value. *)
Definition js_to_string (v : js_value) : string :=
  match v with
  | JUndefined => "undefined"
  | JNull => "null"
  | JBool true => "true"
  | JBool false => "false"
  | JNumber n => pretty n
  | JNaN => "NaN"
  | JString s => s
  | JObject _ => "[object Object]"
  end.

(** An object literal [{ k1: v1, ... }]. *)
Definition js_obj (ps : list (string * js_value)) : js_value := JObject ps.

Lemma js_get_object ps p :
  js_get (JObject ps) p = inr (default JUndefined (assoc_lookup p ps)).
Proof. reflexivity. Qed.

(** Reading a property of a truthy value never throws. *)
Lemma js_get_truthy v p :
  js_truthy v = true -> exists w, js_get v p = inr w.
Proof. destruct v; simpl; try discriminate; eauto. Qed.

Lemma js_get_nullish v p :
  js_get v p = inl (TypeError ReadOfNullish) <-> v = JUndefined \/ v = JNull.
Proof. split; [destruct v; simpl; try discriminate; auto | by intros [-> | ->]]. Qed.

Lemma js_get_ok_or_nullish v p :
  (exists w, js_get v p = inr w) \/ js_get v p = inl (TypeError ReadOfNullish).
Proof. destruct v; simpl; eauto. Qed.

Lemma js_to_string_string s : js_to_string (JString s) = s.
Proof. reflexivity. Qed.

#[export] Hint Rewrite js_get_object js_to_string_string : snelm_rw.
