(* ===== verification/WebHeaders.v ===== *)
(** * The [Headers] objects of the native requests and responses

    oak's [Request.headers] and [Response.headers] and pogo's response
    [headers] are instances of the WHATWG [Headers] class of the Deno
    runtime.  This file models the three methods the adapters call:
    [get], [set] and [delete].  It is a model of the platform, not of the
    repository, written from the Fetch standard's algorithms:

    - a name is valid when it is a non-empty HTTP token; [get], [set] and
      [delete] throw a [TypeError] on an invalid name;
    - [set] normalises the value by removing leading and trailing HTTP
      whitespace, then throws a [TypeError] if it contains NUL, CR or LF;
    - names are compared byte-wise case-insensitively: the header list is
      keyed by the lower-cased name;
    - [set] and [delete] throw a [TypeError] on a [Headers] whose guard is
      immutable (the headers of a [Response] obtained from [fetch]).

    The header list is a map from lower-cased names to the combined value
    ([get] on a name appended several times returns the values joined by
    [", "]; only the combined value is kept). *)

From S2P Require Import Prelude.

Record web_headers := {
  header_list : gmap string string;
  immutable : bool;
}.

Definition token_char (c : ascii) : bool :=
  let n := nat_of_ascii c in
  ((48 <=? n) && (n <=? 57)) || ((65 <=? n) && (n <=? 90)) ||
  ((97 <=? n) && (n <=? 122)) ||
  existsb (fun d => Nat.eqb n (nat_of_ascii d))
    ["!"; "#"; "$"; "%"; "&"; "'"; "*"; "+"; "-"; "."; "^"; "_"; "`"; "|"; "~"]%char.

Definition valid_header_name (k : string) : bool :=
  negb (String.eqb k EmptyString) && forall_chars token_char k.

Definition value_char (c : ascii) : bool :=
  let n := nat_of_ascii c in negb ((n =? 0) || (n =? 10) || (n =? 13)).

(** The value [set] stores, if it accepts it. *)
Definition normalize_header_value (v : string) : string := trim_http v.

Definition valid_header_value (v : string) : bool :=
  forall_chars value_char (normalize_header_value v).

Definition headers_get (h : web_headers) (k : string) : js_error + option string :=
  if valid_header_name k then inr (header_list h !! lower k)
  else inl (TypeError InvalidHeaderName).

Definition headers_set (h : web_headers) (k v : string) : js_error + web_headers :=
  if negb (valid_header_name k) then inl (TypeError InvalidHeaderName)
  else if negb (valid_header_value v) then inl (TypeError InvalidHeaderValue)
  else if immutable h then inl (TypeError ImmutableHeaders)
  else inr {| header_list := <[lower k := normalize_header_value v]> (header_list h);
              immutable := false |}.

Definition headers_delete (h : web_headers) (k : string) : js_error + web_headers :=
  if negb (valid_header_name k) then inl (TypeError InvalidHeaderName)
  else if immutable h then inl (TypeError ImmutableHeaders)
  else inr {| header_list := delete (lower k) (header_list h); immutable := false |}.

(** [new Headers(init)] from a list of name/value pairs (later pairs of the
    same name overwrite, as [set] does). *)
Definition headers_of_list (l : list (string * string)) : web_headers :=
  {| header_list := foldl (fun m kv => <[lower kv.1 := normalize_header_value kv.2]> m) ∅ l;
     immutable := false |}.

(** What [set] accepts. *)
Definition headers_accepts (h : web_headers) (k v : string) : bool :=
  valid_header_name k && valid_header_value v && negb (immutable h).

Section Laws.
Implicit Types (h : web_headers) (k v : string).

Lemma headers_set_ok h k v :
  headers_accepts h k v = true ->
  headers_set h k v =
    inr {| header_list := <[lower k := normalize_header_value v]> (header_list h);
           immutable := false |}.
Proof.
  unfold headers_accepts, headers_set.
  destruct (valid_header_name k), (valid_header_value v), (immutable h); done.
Qed.

Lemma headers_set_reject h k v :
  headers_accepts h k v = false -> exists e, headers_set h k v = inl e.
Proof.
  unfold headers_accepts, headers_set.
  destruct (valid_header_name k), (valid_header_value v), (immutable h); simpl; eauto; done.
Qed.

Lemma headers_delete_ok h k :
  valid_header_name k = true -> immutable h = false ->
  headers_delete h k = inr {| header_list := delete (lower k) (header_list h); immutable := false |}.
Proof. unfold headers_delete. by intros -> ->. Qed.

Lemma headers_get_ok h k :
  valid_header_name k = true -> headers_get h k = inr (header_list h !! lower k).
Proof. unfold headers_get. by intros ->. Qed.

Lemma headers_accepts_name h k v :
  headers_accepts h k v = true -> valid_header_name k = true.
Proof. unfold headers_accepts. by destruct (valid_header_name k). Qed.

Lemma headers_accepts_mutable h k v :
  headers_accepts h k v = true -> immutable h = false.
Proof. unfold headers_accepts. destruct (immutable h); by rewrite ?andb_false_r. Qed.
End Laws.

#[export] Hint Resolve headers_accepts_name headers_accepts_mutable : snelm.
