(* ===== verification/Interface.v ===== *)
(** * The capability contract (src/frameworks/interface.ts)

    [RequestResponseInterface] has four methods; an adapter class wraps a
    native request and a native response ([new Adapter(request, response)])
    and implements them.  Here:

    - [native] is the part of a native request or response object the
      adapters touch: its [headers] property (absent, a plain object used
      as a dictionary, or a [Headers] instance, which is also an object
      with own properties) and the kind of its [header(name, value)]
      method (pogo's response has one);
    - [adapted] is the adapter instance: the two wrapped natives
      ([_request], [_response]);
    - [RequestResponseInterface] is the record of the four operations, in
      the monad [jsm adapted] since they mutate the natives in place and
      may throw;
    - [HeaderContract rr] is what an adapter promises its clients, stated
      as a refinement: on the natives it supports, each operation behaves
      as the matching operation on an abstract map of response headers
      (lookup, insert, delete), up to a key canonicalisation and a value
      normalisation that the adapter fixes, and never touches the request.

    The directives (Directives.v) are proved against [HeaderContract]
    alone; Adapters.v discharges it for the adapters that satisfy it. *)

From S2P Require Import Prelude WebHeaders.

(** The kind of the [header(name, value)] method of a native object. *)
Inductive header_method_kind :=
  | NoHeaderMethod        (** no such method *)
  | HeaderCallsSet        (** [this.headers.set(name, value)], as pogo's Response *)
  | HeaderAssigns.        (** [this.headers[name] = value], a dictionary-style response *)

(** The object at [x.headers]: its own properties, as bracket access sees
    them, and, for a [Headers] instance, its header list. *)
Record headers_obj := {
  own_props : gmap string string;
  web : option web_headers;
}.

Record native := {
  headers : option headers_obj;
  header_method : header_method_kind;
}.

(** An adapter instance: the fields [_request] and [_response]. *)
Record adapted := {
  request : native;
  response : native;
}.

(** src/frameworks/interface.ts: the four methods. *)
Record RequestResponseInterface := {
  getRequestHeader : string -> jsm adapted (option string);
  getResponseHeader : string -> jsm adapted (option string);
  setResponseHeader : string -> string -> jsm adapted unit;
  removeResponseHeader : string -> jsm adapted unit;
}.

(** Helpers shared by the adapters. *)

(** [x.headers]: a [TypeError] when [x.headers] is [undefined] and a member
    is read from it. *)
Definition headers_of (n : native) : js_error + headers_obj :=
  match headers n with
  | Some o => inr o
  | None => inl (TypeError ReadOfNullish)
  end.

(** [x.headers.m(..)] for a method [m] of [Headers]: a [TypeError] when the
    object is not a [Headers] instance. *)
Definition web_of (o : headers_obj) : js_error + web_headers :=
  match web o with
  | Some h => inr h
  | None => inl (TypeError NotAFunction)
  end.

(** The header list of a native whose [headers] is a [Headers] instance. *)
Definition native_web (n : native) : option web_headers :=
  match headers n with Some o => web o | None => None end.

Definition with_response (p : adapted) (n : native) : adapted :=
  {| request := request p; response := n |}.

Definition with_headers (n : native) (o : headers_obj) : native :=
  {| headers := Some o; header_method := header_method n |}.

(** ** The contract *)

Class HeaderContract (rr : RequestResponseInterface) := {
  hc_wf : adapted -> Prop;
  hc_key : string -> string;
  hc_value : string -> string;
  hc_name_ok : string -> bool;
  hc_value_ok : string -> bool;
  hc_view : adapted -> gmap string string;
  hc_req_view : adapted -> gmap string string;

  hc_get_response p k :
    hc_wf p -> hc_name_ok k = true ->
    getResponseHeader rr k p = (p, inr (hc_view p !! hc_key k));
  hc_get_request p k :
    hc_wf p -> hc_name_ok k = true ->
    getRequestHeader rr k p = (p, inr (hc_req_view p !! hc_key k));
  hc_set p k v :
    hc_wf p -> hc_name_ok k = true -> hc_value_ok v = true ->
    exists p', setResponseHeader rr k v p = (p', inr tt) /\ hc_wf p' /\
               hc_view p' = <[hc_key k := hc_value v]> (hc_view p) /\
               request p' = request p;
  hc_set_reject p k v :
    hc_wf p -> hc_name_ok k && hc_value_ok v = false ->
    exists e, setResponseHeader rr k v p = (p, inl e);
  hc_remove p k :
    hc_wf p -> hc_name_ok k = true ->
    exists p', removeResponseHeader rr k p = (p', inr tt) /\ hc_wf p' /\
               hc_view p' = delete (hc_key k) (hc_view p) /\
               request p' = request p;
  hc_remove_reject p k :
    hc_wf p -> hc_name_ok k = false ->
    exists e, removeResponseHeader rr k p = (p, inl e);
}.

Arguments hc_wf rr {_} p.
Arguments hc_key rr {_} k.
Arguments hc_value rr {_} v.
Arguments hc_name_ok rr {_} k.
Arguments hc_value_ok rr {_} v.
Arguments hc_view rr {_} p.
Arguments hc_req_view rr {_} p.

(** ** Sequences of header mutations and their abstract meaning *)

Inductive header_op :=
  | SetHeader (k v : string)
  | RemoveHeader (k : string).

(** The header name an operation targets. *)
Definition op_key (o : header_op) : string :=
  match o with SetHeader k _ | RemoveHeader k => k end.

Definition run_op (rr : RequestResponseInterface) (o : header_op) : jsm adapted unit :=
  match o with
  | SetHeader k v => setResponseHeader rr k v
  | RemoveHeader k => removeResponseHeader rr k
  end.

Fixpoint run_ops (rr : RequestResponseInterface) (os : list header_op) : jsm adapted unit :=
  match os with
  | [] => jret tt
  | o :: os' => jbind (run_op rr o) (fun _ => run_ops rr os')
  end.

Section Abstract.
Context (key value : string -> string).

(** The abstract header map an operation sequence produces. *)
Definition abs_op (o : header_op) (m : gmap string string) : gmap string string :=
  match o with
  | SetHeader k v => <[key k := value v]> m
  | RemoveHeader k => delete (key k) m
  end.

Definition abs_ops (os : list header_op) (m : gmap string string) : gmap string string :=
  foldl (fun m o => abs_op o m) m os.
End Abstract.

Section Refinement.
Context (rr : RequestResponseInterface) `{!HeaderContract rr}.

Definition op_ok (o : header_op) : bool :=
  match o with
  | SetHeader k v => hc_name_ok rr k && hc_value_ok rr v
  | RemoveHeader k => hc_name_ok rr k
  end.

Lemma run_op_refines p o :
  hc_wf rr p -> op_ok o = true ->
  exists p', run_op rr o p = (p', inr tt) /\ hc_wf rr p' /\
             hc_view rr p' = abs_op (hc_key rr) (hc_value rr) o (hc_view rr p) /\
             request p' = request p.
Proof.
  intros Hwf. destruct o as [k v|k]; simpl.
  - intros [Hk Hv]%andb_prop. by apply hc_set.
  - intros Hk. by apply hc_remove.
Qed.

(** Any sequence of accepted set/remove calls on an adapter that keeps
    the contract succeeds and leaves the response headers equal to the
    abstract map the sequence denotes, and the request untouched. *)
Lemma run_ops_refines os p :
  hc_wf rr p -> forallb op_ok os = true ->
  exists p', run_ops rr os p = (p', inr tt) /\ hc_wf rr p' /\
             hc_view rr p' = abs_ops (hc_key rr) (hc_value rr) os (hc_view rr p) /\
             request p' = request p.
Proof.
  revert p. induction os as [|o os IH]; intros p Hwf Hok; simpl in *.
  - by exists p.
  - apply andb_prop in Hok as [Ho Hos].
    destruct (run_op_refines p o Hwf Ho) as (p1 & E1 & Hwf1 & Hv1 & Hr1).
    destruct (IH p1 Hwf1 Hos) as (p2 & E2 & Hwf2 & Hv2 & Hr2).
    exists p2. unfold jbind. rewrite E1, E2. rewrite Hv2, Hv1. by rewrite Hr2, Hr1.
Qed.

(** A rejected operation throws before any mutation. *)
Lemma run_op_reject p o :
  hc_wf rr p -> op_ok o = false -> exists e, run_op rr o p = (p, inl e).
Proof.
  intros Hwf. destruct o as [k v|k]; simpl.
  - by apply hc_set_reject.
  - by apply hc_remove_reject.
Qed.

(** A sequence that succeeds consisted of accepted operations only. *)
Lemma run_ops_ok_inv os p p' :
  hc_wf rr p -> run_ops rr os p = (p', inr tt) -> forallb op_ok os = true.
Proof.
  revert p. induction os as [|o os IH]; intros p Hwf E; [done|]. simpl in *.
  destruct (op_ok o) eqn:Ho.
  - destruct (run_op_refines p o Hwf Ho) as (p1 & E1 & Hwf1 & _).
    rewrite (jbind_ok _ _ _ _ _ E1) in E. by apply (IH p1).
  - destruct (run_op_reject p o Hwf Ho) as [e E1].
    by rewrite (jbind_err _ _ _ _ _ E1) in E.
Qed.

(** A sequence that throws has run an accepted prefix and stopped at the
    first operation the adapter rejects: the response headers are the
    abstract map of the prefix, and the request is untouched. *)
Lemma run_ops_error os p p' e :
  hc_wf rr p -> run_ops rr os p = (p', inl e) ->
  exists pre o post, os = pre ++ o :: post /\ forallb op_ok pre = true /\ op_ok o = false /\
    hc_wf rr p' /\ hc_view rr p' = abs_ops (hc_key rr) (hc_value rr) pre (hc_view rr p) /\
    request p' = request p.
Proof.
  revert p. induction os as [|o os IH]; intros p Hwf E; [done|]. simpl in E.
  destruct (op_ok o) eqn:Ho.
  - destruct (run_op_refines p o Hwf Ho) as (p1 & E1 & Hwf1 & Hv1 & Hr1).
    rewrite (jbind_ok _ _ _ _ _ E1) in E.
    destruct (IH p1 Hwf1 E) as (pre & o' & post & -> & Hpre & Ho' & Hwf' & Hv & Hr).
    exists (o :: pre), o', post. simpl. rewrite Ho, Hpre, Hv, Hv1, Hr, Hr1. auto 10.
  - destruct (run_op_reject p o Hwf Ho) as [e1 E1].
    rewrite (jbind_err _ _ _ _ _ E1) in E. injection E as <- <-.
    exists [], o, os. auto 10.
Qed.
End Refinement.

Section Roundtrip.
Context (rr : RequestResponseInterface) `{!HeaderContract rr}.

(** [set(k, v)] then [get(k')]: the stored value when [k] and [k'] have
    the same canonical key, the previous lookup otherwise. *)
Lemma set_then_get p k k' v :
  hc_wf rr p -> hc_name_ok rr k = true -> hc_value_ok rr v = true -> hc_name_ok rr k' = true ->
  exists p', jbind (setResponseHeader rr k v) (fun _ => getResponseHeader rr k') p =
             (p', inr (if decide (hc_key rr k = hc_key rr k') then Some (hc_value rr v)
                       else hc_view rr p !! hc_key rr k')) /\
             request p' = request p.
Proof.
  intros Hwf Hk Hv Hk'.
  destruct (hc_set p k v Hwf Hk Hv) as (p1 & E & Hwf1 & Hview & Hreq).
  exists p1. rewrite (jbind_ok _ _ _ _ _ E), (hc_get_response p1 k' Hwf1 Hk'), Hview.
  split; [|done]. case_decide as Heq.
  - by rewrite Heq, lookup_insert_eq.
  - by rewrite lookup_insert_ne.
Qed.

(** [remove(k)] then [get(k')]: absent when [k] and [k'] have the same
    canonical key, the previous lookup otherwise. *)
Lemma remove_then_get p k k' :
  hc_wf rr p -> hc_name_ok rr k = true -> hc_name_ok rr k' = true ->
  exists p', jbind (removeResponseHeader rr k) (fun _ => getResponseHeader rr k') p =
             (p', inr (if decide (hc_key rr k = hc_key rr k') then None
                       else hc_view rr p !! hc_key rr k')) /\
             request p' = request p.
Proof.
  intros Hwf Hk Hk'.
  destruct (hc_remove p k Hwf Hk) as (p1 & E & Hwf1 & Hview & Hreq).
  exists p1. rewrite (jbind_ok _ _ _ _ _ E), (hc_get_response p1 k' Hwf1 Hk'), Hview.
  split; [|done]. case_decide as Heq.
  - by rewrite Heq, lookup_delete_eq.
  - by rewrite lookup_delete_ne.
Qed.
End Roundtrip.

Section SingleOp.
Context (rr : RequestResponseInterface) `{!HeaderContract rr}.

Lemma run_ops_single p o :
  hc_wf rr p -> op_ok rr o = true ->
  exists p', run_ops rr [o] p = (p', inr tt) /\ hc_wf rr p' /\
             hc_view rr p' = abs_op (hc_key rr) (hc_value rr) o (hc_view rr p) /\
             request p' = request p.
Proof. intros Hwf Ho. apply (run_ops_refines rr [o] p Hwf). simpl. by rewrite Ho. Qed.

(** A rejected operation throws before any mutation. *)
Lemma run_ops_single_reject p o :
  hc_wf rr p -> op_ok rr o = false -> exists e, run_ops rr [o] p = (p, inl e).
Proof.
  intros Hwf Ho. destruct (run_op_reject rr p o Hwf Ho) as [e E].
  exists e. simpl. by rewrite (jbind_err _ _ _ _ _ E).
Qed.
End SingleOp.

Section AbstractLemmas.
Context (key value : string -> string).

Lemma abs_ops_app os1 os2 m :
  abs_ops key value (os1 ++ os2) m = abs_ops key value os2 (abs_ops key value os1 m).
Proof. unfold abs_ops. by rewrite foldl_app. Qed.

(** The abstract headers at one key after a sequence of operations depend
    only on the headers at that key before. *)
Lemma abs_ops_lookup_local os m1 m2 k :
  m1 !! k = m2 !! k -> abs_ops key value os m1 !! k = abs_ops key value os m2 !! k.
Proof.
  revert m1 m2. induction os as [|o os IH]; intros m1 m2 H; [done|]. simpl.
  apply IH. destruct o as [k' v|k']; simpl.
  - destruct (decide (key k' = k)) as [<-|Hne].
    + by rewrite !lookup_insert_eq.
    + by rewrite !lookup_insert_ne.
  - destruct (decide (key k' = k)) as [<-|Hne].
    + by rewrite !lookup_delete_eq.
    + by rewrite !lookup_delete_ne.
Qed.
(** Keys no operation targets keep their value. *)
Lemma abs_ops_lookup_other os m x :
  Forall (fun o => key (op_key o) <> x) os -> abs_ops key value os m !! x = m !! x.
Proof.
  revert m. induction os as [|o os IH]; intros m Hf; [done|].
  apply Forall_cons in Hf as [Ho Hf]. simpl. rewrite IH by done.
  destruct o as [k v|k]; simpl in *; [by rewrite lookup_insert_ne | by rewrite lookup_delete_ne].
Qed.
End AbstractLemmas.
