(* ===== verification/Adapters.v ===== *)
(** * The framework adapters (src/frameworks/oak.ts, src/frameworks/pogo.ts)

    Each adapter class stores the native request and response and maps the
    four methods of the interface onto the natives' header containers.
    [Module Oak] and [Module Pogo] translate the two classes method by
    method; each builds the record of operations [RequestResponseInterface]
    the orchestrator instantiates.

    - oak reads and writes [headers] through the [Headers] methods
      [get]/[set]/[delete].  On natives whose [headers] are [Headers]
      instances with a mutable guard it satisfies [HeaderContract] with
      lower-cased keys and trimmed values ([Oak.oak_contract]).
    - pogo reads with bracket access [headers[k]], deletes with
      [delete headers[k]] and writes through the response's
      [header(k, v)] method.  It satisfies the contract, with keys and
      values unchanged, on responses whose [header] method assigns the
      property ([Pogo.pogo_assign_contract]).  On pogo's own Response,
      whose [headers] is a [Headers] instance and whose [header] calls
      [headers.set], bracket access sees the object's own properties and
      not its header list: reads never see a header and deletions never
      remove one (module [PogoProps]).
    - Both classes' [request] and [response] getters ([request_getter],
      [response_getter]), and the request side: [getRequestHeader] of each
      adapter ([getRequestHeader_lookup]). *)

From S2P Require Import Prelude WebHeaders Interface.
Local Open Scope js_scope.

(** Replace the headers object of the wrapped response. *)
Definition put_response_headers (p : adapted) (o : headers_obj) : jsm adapted unit :=
  jput (with_response p (with_headers (response p) o)).

Module Oak.

(** [this._request.headers.get(headerKey)] *)
Definition getRequestHeader (headerKey : string) : jsm adapted (option string) :=
  p <- jget ;;
  o <- jlift (headers_of (request p)) ;;
  h <- jlift (web_of o) ;;
  jlift (headers_get h headerKey).

(** [this._response.headers.get(headerKey)] *)
Definition getResponseHeader (headerKey : string) : jsm adapted (option string) :=
  p <- jget ;;
  o <- jlift (headers_of (response p)) ;;
  h <- jlift (web_of o) ;;
  jlift (headers_get h headerKey).

(** [this._response.headers.set(headerKey, headerValue)] *)
Definition setResponseHeader (headerKey headerValue : string) : jsm adapted unit :=
  p <- jget ;;
  o <- jlift (headers_of (response p)) ;;
  h <- jlift (web_of o) ;;
  h' <- jlift (headers_set h headerKey headerValue) ;;
  put_response_headers p {| own_props := own_props o; web := Some h' |}.

(** [this._response.headers.delete(headerKey)] *)
Definition removeResponseHeader (headerKey : string) : jsm adapted unit :=
  p <- jget ;;
  o <- jlift (headers_of (response p)) ;;
  h <- jlift (web_of o) ;;
  h' <- jlift (headers_delete h headerKey) ;;
  put_response_headers p {| own_props := own_props o; web := Some h' |}.

(** [get request()] and [get response()]: the wrapped natives. *)
Definition request_getter : jsm adapted native := p <- jget ;; jret (request p).
Definition response_getter : jsm adapted native := p <- jget ;; jret (response p).

Definition OakRequestResponse : RequestResponseInterface := {|
  Interface.getRequestHeader := getRequestHeader;
  Interface.getResponseHeader := getResponseHeader;
  Interface.setResponseHeader := setResponseHeader;
  Interface.removeResponseHeader := removeResponseHeader;
|}.

(** The natives oak's adapter supports: both [headers] are [Headers]
    instances, the response's with a mutable guard. *)
Definition oak_wfb (p : adapted) : bool :=
  match native_web (request p), native_web (response p) with
  | Some _, Some hs => negb (immutable hs)
  | _, _ => false
  end.

Definition oak_view (n : native) : gmap string string :=
  match native_web n with Some h => header_list h | None => ∅ end.

Lemma oak_wf_inv p :
  oak_wfb p = true ->
  exists oq hq os hs, headers (request p) = Some oq /\ web oq = Some hq /\
    headers (response p) = Some os /\ web os = Some hs /\ immutable hs = false.
Proof.
  unfold oak_wfb, native_web.
  destruct (headers (request p)) as [oq|] eqn:Eq; [|done].
  destruct (web oq) as [hq|] eqn:Wq; [|done].
  destruct (headers (response p)) as [os|] eqn:Es; [|done].
  destruct (web os) as [hs|] eqn:Ws; [|done].
  intros Hm. exists oq, hq, os, hs. by destruct (immutable hs).
Qed.

Ltac oak_run Hwf :=
  destruct (oak_wf_inv _ Hwf) as (oq & hq & os & hs & Eq & Wq & Es & Ws & Is);
  unfold OakRequestResponse, getRequestHeader, getResponseHeader, setResponseHeader,
    removeResponseHeader, put_response_headers, headers_of, web_of; jsm_unfold;
  rewrite ?Eq, ?Wq, ?Es, ?Ws.

#[export] Program Instance oak_contract : HeaderContract OakRequestResponse := {
  hc_wf p := oak_wfb p = true;
  hc_key := lower;
  hc_value := normalize_header_value;
  hc_name_ok := valid_header_name;
  hc_value_ok := valid_header_value;
  hc_view p := oak_view (response p);
  hc_req_view p := oak_view (request p);
}.
Next Obligation.
  intros p k Hwf Hk. oak_run Hwf. unfold oak_view, native_web. rewrite Es, Ws.
  by rewrite headers_get_ok.
Qed.
Next Obligation.
  intros p k Hwf Hk. oak_run Hwf. unfold oak_view, native_web. rewrite Eq, Wq.
  by rewrite headers_get_ok.
Qed.
Next Obligation.
  intros p k v Hwf Hk Hv. oak_run Hwf.
  assert (Ha : headers_accepts hs k v = true)
    by (unfold headers_accepts; by rewrite Hk, Hv, Is).
  rewrite (headers_set_ok _ _ _ Ha). eexists; split; [reflexivity|].
  unfold oak_wfb, oak_view, native_web, with_response, with_headers; simpl.
  rewrite Eq, Wq, Es, Ws. done.
Qed.
Next Obligation.
  intros p k v Hwf Hkv. oak_run Hwf. unfold headers_set.
  destruct (valid_header_name k), (valid_header_value v); simpl in *; eauto; done.
Qed.
Next Obligation.
  intros p k Hwf Hk. oak_run Hwf. rewrite (headers_delete_ok _ _ Hk Is).
  eexists; split; [reflexivity|].
  unfold oak_wfb, oak_view, native_web, with_response, with_headers; simpl.
  rewrite Eq, Wq, Es, Ws. done.
Qed.
Next Obligation.
  intros p k Hwf Hk. oak_run Hwf. unfold headers_delete. rewrite Hk. eauto.
Qed.

End Oak.

#[export] Existing Instance Oak.oak_contract.

Module Pogo.

(** [this._request.headers[headerKey]] *)
Definition getRequestHeader (headerKey : string) : jsm adapted (option string) :=
  p <- jget ;;
  o <- jlift (headers_of (request p)) ;;
  jret (own_props o !! headerKey).

(** [this._response.headers[headerKey]] *)
Definition getResponseHeader (headerKey : string) : jsm adapted (option string) :=
  p <- jget ;;
  o <- jlift (headers_of (response p)) ;;
  jret (own_props o !! headerKey).

(** [this._response.header(headerKey, headerValue)]: what runs is the
    native response's own [header] method. *)
Definition setResponseHeader (headerKey headerValue : string) : jsm adapted unit :=
  p <- jget ;;
  match header_method (response p) with
  | NoHeaderMethod => jthrow (TypeError NotAFunction)
  | HeaderCallsSet =>
      o <- jlift (headers_of (response p)) ;;
      h <- jlift (web_of o) ;;
      h' <- jlift (headers_set h headerKey headerValue) ;;
      put_response_headers p {| own_props := own_props o; web := Some h' |}
  | HeaderAssigns =>
      o <- jlift (headers_of (response p)) ;;
      put_response_headers p
        {| own_props := <[headerKey := headerValue]> (own_props o); web := web o |}
  end.

(** [delete this._response.headers[headerKey]] *)
Definition removeResponseHeader (headerKey : string) : jsm adapted unit :=
  p <- jget ;;
  o <- jlift (headers_of (response p)) ;;
  put_response_headers p {| own_props := delete headerKey (own_props o); web := web o |}.

(** [get request()] and [get response()]: the wrapped natives. *)
Definition request_getter : jsm adapted native := p <- jget ;; jret (request p).
Definition response_getter : jsm adapted native := p <- jget ;; jret (response p).

Definition PogoRequestResponse : RequestResponseInterface := {|
  Interface.getRequestHeader := getRequestHeader;
  Interface.getResponseHeader := getResponseHeader;
  Interface.setResponseHeader := setResponseHeader;
  Interface.removeResponseHeader := removeResponseHeader;
|}.

(** Natives with a [headers] object and, on the response, a [header]
    method that assigns the property. *)
Definition pogo_assign_wfb (p : adapted) : bool :=
  match headers (request p), headers (response p), header_method (response p) with
  | Some _, Some _, HeaderAssigns => true
  | _, _, _ => false
  end.

Definition props_view (n : native) : gmap string string :=
  match headers n with Some o => own_props o | None => ∅ end.

Lemma pogo_wf_inv p :
  pogo_assign_wfb p = true ->
  exists oq os, headers (request p) = Some oq /\ headers (response p) = Some os /\
                header_method (response p) = HeaderAssigns.
Proof.
  unfold pogo_assign_wfb.
  destruct (headers (request p)) as [oq|] eqn:Eq, (headers (response p)) as [os|] eqn:Es,
    (header_method (response p)) eqn:Em; try done. eauto.
Qed.

Ltac pogo_run Hwf :=
  destruct (pogo_wf_inv _ Hwf) as (oq & os & Eq & Es & Em);
  unfold PogoRequestResponse, getRequestHeader, getResponseHeader, setResponseHeader,
    removeResponseHeader, put_response_headers, headers_of; jsm_unfold;
  rewrite ?Eq, ?Es, ?Em.

#[export] Program Instance pogo_assign_contract : HeaderContract PogoRequestResponse := {
  hc_wf p := pogo_assign_wfb p = true;
  hc_key k := k;
  hc_value v := v;
  hc_name_ok _ := true;
  hc_value_ok _ := true;
  hc_view p := props_view (response p);
  hc_req_view p := props_view (request p);
}.
Next Obligation. intros p k Hwf _. pogo_run Hwf. unfold props_view. by rewrite Es. Qed.
Next Obligation. intros p k Hwf _. pogo_run Hwf. unfold props_view. by rewrite Eq. Qed.
Next Obligation.
  intros p k v Hwf _ _. pogo_run Hwf. eexists; split; [reflexivity|].
  unfold pogo_assign_wfb, props_view, with_response, with_headers; simpl.
  by rewrite Eq, Es, Em.
Qed.
Next Obligation. done. Qed.
Next Obligation.
  intros p k Hwf _. pogo_run Hwf. eexists; split; [reflexivity|].
  unfold pogo_assign_wfb, props_view, with_response, with_headers; simpl.
  by rewrite Eq, Es, Em.
Qed.
Next Obligation. done. Qed.

End Pogo.

#[export] Existing Instance Pogo.pogo_assign_contract.

(** ** Properties of the adapters *)

(** Sample natives: a request with no headers and a response carrying
    [X-Powered-By: Express], as [Headers] instances. *)
Definition headers_native (l : list (string * string)) (m : header_method_kind) : native :=
  {| headers := Some {| own_props := ∅; web := Some (headers_of_list l) |}; header_method := m |}.

Definition oak_sample : adapted :=
  {| request := headers_native [] NoHeaderMethod;
     response := headers_native [("X-Powered-By", "Express")] NoHeaderMethod |}.

Module OakProps.
Import Oak.

(** C10: oak's adapter round-trips a header through [set] and [get], with
    names compared case-insensitively and the value trimmed. *)
Theorem oak_set_get_roundtrip p k k' v :
  oak_wfb p = true -> valid_header_name k = true -> valid_header_value v = true ->
  valid_header_name k' = true -> lower k = lower k' ->
  exists p', jbind (setResponseHeader k v) (fun _ => getResponseHeader k') p =
             (p', inr (Some (normalize_header_value v))) /\ request p' = request p.
Proof.
  intros Hwf Hk Hv Hk' Heq.
  destruct (set_then_get OakRequestResponse p k k' v) as (p' & E & Hr); auto.
  exists p'. simpl in E. by rewrite decide_True in E.
Qed.

Lemma oak_set_get_roundtrip_witness :
  exists p', jbind (setResponseHeader "X-Powered-By" " PHP 4.2.0 ")
               (fun _ => getResponseHeader "x-powered-by") oak_sample =
             (p', inr (Some "PHP 4.2.0")) /\ request p' = request oak_sample.
Proof.
  apply (oak_set_get_roundtrip oak_sample "X-Powered-By" "x-powered-by" " PHP 4.2.0 ");
    vm_compute; reflexivity.
Defined.
End OakProps.

Definition dict_native (l : list (string * string)) (m : header_method_kind) : native :=
  {| headers := Some {| own_props := list_to_map l; web := None |}; header_method := m |}.

Definition pogo_dict_sample : adapted :=
  {| request := dict_native [] NoHeaderMethod;
     response := dict_native [("X-Powered-By", "Express")] HeaderAssigns |}.

(** pogo's own Response: [headers] is a [Headers] instance and
    [header(name, value)] calls [headers.set]. *)
Definition pogo_sample : adapted :=
  {| request := headers_native [] NoHeaderMethod;
     response := headers_native [("X-Powered-By", "Express")] HeaderCallsSet |}.

Module PogoProps.
Import Pogo.

(** C11: on a response whose [headers] is a dictionary written by its
    [header] method, pogo's adapter round-trips a header exactly. *)
Theorem pogo_set_get_roundtrip p k v :
  pogo_assign_wfb p = true ->
  exists p', jbind (setResponseHeader k v) (fun _ => getResponseHeader k) p =
             (p', inr (Some v)) /\ request p' = request p.
Proof.
  intros Hwf.
  destruct (set_then_get PogoRequestResponse p k k v) as (p' & E & Hr); auto.
  exists p'. simpl in E. by rewrite decide_True in E.
Qed.

Lemma pogo_set_get_roundtrip_witness :
  exists p', jbind (setResponseHeader "X-Powered-By" "PHP 4.2.0")
               (fun _ => getResponseHeader "X-Powered-By") pogo_dict_sample =
             (p', inr (Some "PHP 4.2.0")) /\ request p' = request pogo_dict_sample.
Proof. apply pogo_set_get_roundtrip. reflexivity. Defined.

(** C12: on pogo's own Response ([headers] a [Headers] instance,
    [header] calling [headers.set]), [removeResponseHeader] succeeds
    and leaves the header list unchanged: the header is still sent. *)
Theorem pogo_headers_remove_noop p o h k :
  headers (response p) = Some o -> web o = Some h ->
  exists p', removeResponseHeader k p = (p', inr tt) /\
             native_web (response p') = Some h.
Proof.
  intros Ho Hh. unfold removeResponseHeader, put_response_headers, headers_of.
  jsm_unfold. rewrite Ho. eexists; split; [reflexivity|]. unfold native_web; simpl; by rewrite Hh.
Qed.

Lemma pogo_headers_remove_noop_witness :
  exists p', removeResponseHeader "X-Powered-By" pogo_sample = (p', inr tt) /\
             native_web (response p') = Some (headers_of_list [("X-Powered-By", "Express")]).
Proof.
  apply (pogo_headers_remove_noop pogo_sample
           {| own_props := ∅; web := Some (headers_of_list [("X-Powered-By", "Express")]) |});
    reflexivity.
Defined.

(** C13: on pogo's own Response, a header written by [setResponseHeader]
    goes to the header list while [getResponseHeader] reads the object's
    own properties: the read after a successful write returns what it
    returned before. *)
Theorem pogo_headers_set_invisible p o h k v :
  header_method (response p) = HeaderCallsSet ->
  headers (response p) = Some o -> web o = Some h -> headers_accepts h k v = true ->
  exists p', jbind (setResponseHeader k v) (fun _ => getResponseHeader k) p =
             (p', inr (own_props o !! k)) /\
             native_web (response p') =
               Some {| header_list := <[lower k := normalize_header_value v]> (header_list h);
                       immutable := false |}.
Proof.
  intros Hm Ho Hh Ha. unfold setResponseHeader, getResponseHeader, put_response_headers,
    headers_of, web_of. jsm_unfold. rewrite Hm, Ho, Hh, (headers_set_ok _ _ _ Ha).
  simpl. eexists; split; reflexivity.
Qed.

Lemma pogo_headers_set_invisible_witness :
  exists p', jbind (setResponseHeader "X-Frame-Options" "DENY")
               (fun _ => getResponseHeader "X-Frame-Options") pogo_sample =
             (p', inr None) /\
             native_web (response p') =
               Some {| header_list := <[lower "X-Frame-Options" := "DENY"]>
                                        (header_list (headers_of_list [("X-Powered-By", "Express")]));
                       immutable := false |}.
Proof.
  destruct (pogo_headers_set_invisible pogo_sample
           {| own_props := ∅; web := Some (headers_of_list [("X-Powered-By", "Express")]) |}
           (headers_of_list [("X-Powered-By", "Express")]) "X-Frame-Options" "DENY"
           eq_refl eq_refl eq_refl eq_refl) as (p' & E & W).
  exists p'. split; [exact E | exact W].
Defined.
End PogoProps.

(** ** pogo's adapter never removes a header from pogo's own Response *)

(** The wrapped response is pogo's own kind ([header] calls
    [headers.set]) and its header list holds [x]. *)
Definition pogo_keeps (x : string) (p : adapted) : Prop :=
  header_method (response p) = HeaderCallsSet /\
  exists h, native_web (response p) = Some h /\ is_Some (header_list h !! x).

Lemma pogo_keeps_inv x p :
  pogo_keeps x p ->
  exists o h, header_method (response p) = HeaderCallsSet /\ headers (response p) = Some o /\
    web o = Some h /\ is_Some (header_list h !! x).
Proof.
  intros [Hm (h & Hw & Hx)]. unfold native_web in Hw.
  destruct (headers (response p)) as [o|] eqn:Ho; [|done]. by exists o, h.
Qed.

Lemma pogo_set_keeps x k v : preserves (pogo_keeps x) (Pogo.setResponseHeader k v).
Proof.
  intros p Hp. destruct (pogo_keeps_inv x p Hp) as (o & h & Hm & Ho & Hw & Hx).
  unfold Pogo.setResponseHeader, put_response_headers, headers_of, web_of.
  jsm_unfold. rewrite Hm, Ho, Hw.
  destruct (headers_set h k v) as [e|h'] eqn:Hs; [done|]. simpl.
  split; [done|]. exists h'. unfold native_web; simpl. split; [done|].
  unfold headers_set in Hs. repeat case_match; simplify_eq/=.
  destruct (decide (lower k = x)) as [<-|Hne].
  - by rewrite lookup_insert_eq.
  - by rewrite lookup_insert_ne.
Qed.

Lemma pogo_remove_keeps x k : preserves (pogo_keeps x) (Pogo.removeResponseHeader k).
Proof.
  intros p Hp. destruct (pogo_keeps_inv x p Hp) as (o & h & Hm & Ho & Hw & Hx).
  unfold Pogo.removeResponseHeader, put_response_headers, headers_of.
  jsm_unfold. rewrite Ho. split; [done|]. exists h. unfold native_web; simpl. by rewrite Hw.
Qed.

Lemma pogo_run_ops_keeps x os : preserves (pogo_keeps x) (run_ops Pogo.PogoRequestResponse os).
Proof.
  induction os as [|[k v|k] os IH]; simpl; auto with snelm.
  - apply preserves_bind; [apply pogo_set_keeps | auto].
  - apply preserves_bind; [apply pogo_remove_keeps | auto].
Qed.

(** ** The request side *)

(** C28: [getRequestHeader] reads the request without changing anything.
    oak's looks the name up case-insensitively in the request's header
    list; pogo's reads the own property of the request's [headers] object
    with the exact name given, so on a request whose [headers] is a
    [Headers] instance it finds nothing, whatever the header list holds. *)
Theorem getRequestHeader_lookup p k :
  (Oak.oak_wfb p = true -> valid_header_name k = true ->
   Oak.getRequestHeader k p = (p, inr (Oak.oak_view (request p) !! lower k))) /\
  (forall o, headers (request p) = Some o ->
   Pogo.getRequestHeader k p = (p, inr (own_props o !! k))) /\
  (headers (request p) = None -> exists e,
   Oak.getRequestHeader k p = (p, inl e) /\ Pogo.getRequestHeader k p = (p, inl e)).
Proof.
  split; [|split].
  - intros Hwf Hk. exact (hc_get_request (rr := Oak.OakRequestResponse) p k Hwf Hk).
  - intros o Ho. unfold Pogo.getRequestHeader, headers_of. jsm_unfold. by rewrite Ho.
  - intros Hn. exists (TypeError ReadOfNullish).
    unfold Oak.getRequestHeader, Pogo.getRequestHeader, headers_of. jsm_unfold. by rewrite Hn.
Qed.

(** A request whose [headers] is a [Headers] instance holding
    [X-Forwarded-Proto: https]. *)
Definition proto_request : adapted :=
  {| request := headers_native [("X-Forwarded-Proto", "https")] NoHeaderMethod;
     response := headers_native [] NoHeaderMethod |}.

Lemma getRequestHeader_lookup_witness :
  Oak.getRequestHeader "x-forwarded-proto" proto_request = (proto_request, inr (Some "https")) /\
  Pogo.getRequestHeader "X-Forwarded-Proto" proto_request = (proto_request, inr None).
Proof.
  destruct (getRequestHeader_lookup proto_request "x-forwarded-proto") as [Hoak _].
  destruct (getRequestHeader_lookup proto_request "X-Forwarded-Proto") as [_ [Hpogo _]].
  split; [rewrite Hoak by reflexivity | rewrite (Hpogo _ eq_refl)]; reflexivity.
Defined.
