(* ===== verification/Directives.v ===== *)
(** * The directives of src/deps

    Each directive takes the adapted pair and its options and mutates the
    response through [setResponseHeader] / [removeResponseHeader].  The
    three whose source is in the repository are translated here; they are
    written against any [RequestResponseInterface], so they run on
    whichever adapter [Snelm.init] loaded.

    For each directive the file proves
    - that it is exactly one header operation, fixed by the options
      ([*_ops] and the [*_is_ops] lemmas), for every adapter; and
    - its effect on the abstract response headers through
      [HeaderContract]: the header set, with the value the options select,
      or removed; the request untouched; and, when the adapter rejects the
      value, an exception with no mutation.

    The option interfaces the sources declare ([DnsPrefetchControlOptions],
    [HidePoweredByOptions]) are records, embedded into JavaScript values;
    the last section states what the directives do on values of those
    types. *)

From S2P Require Import Prelude JsValue WebHeaders Interface Adapters.
Local Open Scope js_scope.

(** ** dns-prefetch-control (src/deps/dns-prefetch-control/index.ts) *)
Module DnsPrefetchControl.

(** [options && options.allow ? 'on' : 'off'] *)
Definition getHeaderValueFromOptions (options : js_value) : js_error + string :=
  if js_truthy options then
    match js_get options "allow" with
    | inl e => inl e
    | inr allow => inr (if js_truthy allow then "on" else "off")
    end
  else inr "off".

Definition dnsPrefetchControl (rr : RequestResponseInterface) (options : js_value)
  : jsm adapted unit :=
  headerValue <- jlift (getHeaderValueFromOptions options) ;;
  setResponseHeader rr "X-DNS-Prefetch-Control" headerValue.

(** The header value the options select. *)
Definition dns_value (options : js_value) : string :=
  match getHeaderValueFromOptions options with inr v => v | inl _ => "off" end.

Definition dns_ops (options : js_value) : list header_op :=
  [SetHeader "X-DNS-Prefetch-Control" (dns_value options)].

(** Computing the header value never throws: [options.allow] is read
    only when [options] is truthy. *)
Lemma getHeaderValueFromOptions_total options :
  getHeaderValueFromOptions options = inr (dns_value options).
Proof.
  unfold dns_value, getHeaderValueFromOptions.
  destruct (js_truthy options) eqn:T; [|done].
  destruct (js_get_truthy options "allow" T) as [w ->]. done.
Qed.

(** [interface DnsPrefetchControlOptions { allow?: boolean; }] and the
    value a caller that respects the type [options?: DnsPrefetchControlOptions]
    passes: [undefined], or an object whose [allow] is absent or a boolean. *)
Record DnsPrefetchControlOptions := { allow : option bool }.

Definition dns_options_js (options : option DnsPrefetchControlOptions) : js_value :=
  match options with
  | None => JUndefined
  | Some o => js_obj (match allow o with Some b => [("allow", JBool b)] | None => [] end)
  end.

Lemma dnsPrefetchControl_is_ops rr options p :
  dnsPrefetchControl rr options p = run_ops rr (dns_ops options) p.
Proof.
  unfold dnsPrefetchControl, dns_ops. simpl. rewrite jbind_ret_unit.
  unfold jbind, jlift. by rewrite getHeaderValueFromOptions_total.
Qed.
End DnsPrefetchControl.

(** ** hide-powered-by (src/deps/hide-powered-by/index.ts) *)
Module HidePoweredBy.

(** [const { setTo = null } = options || {}; if (setTo) set else remove] *)
Definition hidePoweredBy (rr : RequestResponseInterface) (options : js_value)
  : jsm adapted unit :=
  setTo <- jlift (js_get (js_or options (js_obj [])) "setTo") ;;
  let setTo := match setTo with JUndefined => JNull | v => v end in
  if js_truthy setTo then setResponseHeader rr "X-Powered-By" (js_to_string setTo)
  else removeResponseHeader rr "X-Powered-By".

(** The value [setTo] is bound to. *)
Definition setTo_of (options : js_value) : js_value :=
  match js_get (js_or options (js_obj [])) "setTo" with
  | inr JUndefined | inl _ => JNull
  | inr v => v
  end.

Definition hide_ops (options : js_value) : list header_op :=
  if js_truthy (setTo_of options)
  then [SetHeader "X-Powered-By" (js_to_string (setTo_of options))]
  else [RemoveHeader "X-Powered-By"].

(** [interface HidePoweredByOptions { setTo?: string; }] and the value a
    caller that respects [options?: HidePoweredByOptions] passes. *)
Record HidePoweredByOptions := { setTo : option string }.

Definition hide_options_js (options : option HidePoweredByOptions) : js_value :=
  match options with
  | None => JUndefined
  | Some o => js_obj (match setTo o with Some v => [("setTo", JString v)] | None => [] end)
  end.

(** [options || {}] is never nullish, so the destructuring never throws. *)
Lemma js_get_or_obj options k :
  js_get (js_or options (js_obj [])) k =
  inr (match js_get (js_or options (js_obj [])) k with inr v => v | inl _ => JUndefined end).
Proof.
  unfold js_or. destruct (js_truthy options) eqn:T; [|done].
  by destruct (js_get_truthy options k T) as [w ->].
Qed.

Lemma hidePoweredBy_is_ops rr options p :
  hidePoweredBy rr options p = run_ops rr (hide_ops options) p.
Proof.
  unfold hidePoweredBy, hide_ops, setTo_of. unfold jbind at 1, jlift.
  rewrite js_get_or_obj.
  destruct (js_get (js_or options (js_obj [])) "setTo") as [e|v]; simpl.
  - symmetry. apply jbind_ret_unit.
  - destruct (js_truthy (match v with JUndefined => JNull | _ => v end));
      simpl; symmetry; apply jbind_ret_unit.
Qed.
End HidePoweredBy.

(** ** dont-sniff-mimetype (src/deps/dont-sniff-mimetype/index.ts) *)
Module DontSniffMimetype.

Definition dontSniffMimetype (rr : RequestResponseInterface) : jsm adapted unit :=
  setResponseHeader rr "X-Content-Type-Options" "nosniff".

Definition nosniff_ops : list header_op := [SetHeader "X-Content-Type-Options" "nosniff"].

Lemma dontSniffMimetype_is_ops rr p :
  dontSniffMimetype rr p = run_ops rr nosniff_ops p.
Proof. unfold dontSniffMimetype. simpl. by rewrite jbind_ret_unit. Qed.
End DontSniffMimetype.

(** ** Behaviour through the contract *)
Section Behaviour.
Context (rr : RequestResponseInterface) `{!HeaderContract rr}.
Import DnsPrefetchControl HidePoweredBy DontSniffMimetype.

(** C6: dnsPrefetchControl sets [X-DNS-Prefetch-Control] to ["on"] when
    [options] is truthy and [options.allow] is truthy, and to ["off"]
    otherwise; it changes no other response header and leaves the request
    untouched. *)
Theorem dnsPrefetchControl_spec options p :
  hc_wf rr p -> hc_name_ok rr "X-DNS-Prefetch-Control" = true ->
  hc_value_ok rr "on" = true -> hc_value_ok rr "off" = true ->
  exists p', dnsPrefetchControl rr options p = (p', inr tt) /\ hc_wf rr p' /\
    hc_view rr p' =
      <[hc_key rr "X-DNS-Prefetch-Control" :=
          hc_value rr (if js_truthy options &&
                          match js_get options "allow" with inr a => js_truthy a | inl _ => false end
                       then "on" else "off")]> (hc_view rr p) /\
    request p' = request p.
Proof.
  intros Hwf Hk Hon Hoff. rewrite dnsPrefetchControl_is_ops. unfold dns_ops.
  assert (Hv : dns_value options =
                 if js_truthy options &&
                    match js_get options "allow" with inr a => js_truthy a | inl _ => false end
                 then "on" else "off").
  { unfold dns_value, getHeaderValueFromOptions.
    destruct (js_truthy options); [|done]. by destruct (js_get options "allow"). }
  rewrite <- Hv. apply (run_ops_single rr p (SetHeader _ _) Hwf). simpl.
  rewrite Hk, Hv. by destruct (_ && _).
Qed.

(** C7: hidePoweredBy with a truthy [setTo] sets [X-Powered-By] to
    [String(setTo)]; otherwise (no options, no [setTo], or a falsy one
    such as [""]) it removes the header. *)
Theorem hidePoweredBy_spec options p :
  hc_wf rr p -> hc_name_ok rr "X-Powered-By" = true ->
  (js_truthy (setTo_of options) = true ->
   hc_value_ok rr (js_to_string (setTo_of options)) = true) ->
  exists p', hidePoweredBy rr options p = (p', inr tt) /\ hc_wf rr p' /\
    hc_view rr p' =
      (if js_truthy (setTo_of options)
       then <[hc_key rr "X-Powered-By" := hc_value rr (js_to_string (setTo_of options))]>
              (hc_view rr p)
       else delete (hc_key rr "X-Powered-By") (hc_view rr p)) /\
    request p' = request p.
Proof.
  intros Hwf Hk Hv. rewrite hidePoweredBy_is_ops. unfold hide_ops.
  destruct (js_truthy (setTo_of options)) eqn:T.
  - apply (run_ops_single rr p (SetHeader _ _) Hwf). simpl. by rewrite Hk, Hv.
  - apply (run_ops_single rr p (RemoveHeader _) Hwf). simpl. by rewrite Hk.
Qed.

(** C8: a [setTo] the adapter rejects (for oak, a value with CR, LF or
    NUL) makes hidePoweredBy throw with the response unchanged. *)
Theorem hidePoweredBy_reject options p :
  hc_wf rr p -> js_truthy (setTo_of options) = true ->
  hc_name_ok rr "X-Powered-By" && hc_value_ok rr (js_to_string (setTo_of options)) = false ->
  exists e, hidePoweredBy rr options p = (p, inl e).
Proof.
  intros Hwf T Hv. rewrite hidePoweredBy_is_ops. unfold hide_ops. rewrite T.
  by apply (run_ops_single_reject rr p (SetHeader _ _) Hwf).
Qed.

(** C9: dontSniffMimetype sets [X-Content-Type-Options: nosniff]. *)
Theorem dontSniffMimetype_spec p :
  hc_wf rr p -> hc_name_ok rr "X-Content-Type-Options" = true ->
  hc_value_ok rr "nosniff" = true ->
  exists p', dontSniffMimetype rr p = (p', inr tt) /\ hc_wf rr p' /\
    hc_view rr p' = <[hc_key rr "X-Content-Type-Options" := hc_value rr "nosniff"]> (hc_view rr p) /\
    request p' = request p.
Proof.
  intros Hwf Hk Hv. rewrite dontSniffMimetype_is_ops. unfold nosniff_ops.
  apply (run_ops_single rr p (SetHeader _ _) Hwf). simpl. by rewrite Hk, Hv.
Qed.
End Behaviour.

(** ** The declared types of the options *)

(** C22: [getHeaderValueFromOptions] has its declared result type
    ['on' | 'off'] on every argument, typed or not; on an argument of the
    declared type [DnsPrefetchControlOptions] the value is ['on'] exactly
    when [allow] is [true]. *)
Theorem dns_header_value_typed :
  (forall options, exists v, DnsPrefetchControl.getHeaderValueFromOptions options = inr v /\
                             (v = "on" \/ v = "off")) /\
  (forall o : option DnsPrefetchControl.DnsPrefetchControlOptions,
     DnsPrefetchControl.getHeaderValueFromOptions (DnsPrefetchControl.dns_options_js o) =
     inr (match o with Some {| DnsPrefetchControl.allow := Some true |} => "on" | _ => "off" end)).
Proof.
  split.
  - intros options. exists (DnsPrefetchControl.dns_value options).
    rewrite DnsPrefetchControl.getHeaderValueFromOptions_total. split; [done|].
    unfold DnsPrefetchControl.dns_value, DnsPrefetchControl.getHeaderValueFromOptions.
    destruct (js_truthy options); [|auto].
    destruct (js_get options "allow") as [|a]; [auto|]. destruct (js_truthy a); auto.
  - by intros [[[[]|]]|].
Qed.

(** C23: on an argument of the declared type [HidePoweredByOptions],
    hidePoweredBy sets [X-Powered-By] to [setTo] when it is a non-empty
    string and removes the header when [setTo] is absent or [""] (or the
    options are omitted). *)
Theorem hide_ops_typed (o : option HidePoweredBy.HidePoweredByOptions) :
  HidePoweredBy.hide_ops (HidePoweredBy.hide_options_js o) =
  match o with
  | Some {| HidePoweredBy.setTo := Some (String c s) |} => [SetHeader "X-Powered-By" (String c s)]
  | _ => [RemoveHeader "X-Powered-By"]
  end.
Proof. by destruct o as [[[[|c s]|]]|]. Qed.

(** ** Witnesses on oak's adapter *)
Section Witnesses.
Import DnsPrefetchControl HidePoweredBy DontSniffMimetype.

Lemma dnsPrefetchControl_spec_witness :
  exists p', dnsPrefetchControl Oak.OakRequestResponse (js_obj [("allow", JBool true)]) oak_sample = (p', inr tt) /\
    hc_wf Oak.OakRequestResponse p' /\
    hc_view Oak.OakRequestResponse p' =
      <[hc_key Oak.OakRequestResponse "X-DNS-Prefetch-Control" :=
          hc_value Oak.OakRequestResponse
            (if js_truthy (js_obj [("allow", JBool true)]) &&
                match js_get (js_obj [("allow", JBool true)]) "allow" with inr a => js_truthy a | inl _ => false end
             then "on" else "off")]>
        (hc_view Oak.OakRequestResponse oak_sample) /\
    request p' = request oak_sample.
Proof. apply (dnsPrefetchControl_spec Oak.OakRequestResponse (js_obj [("allow", JBool true)])); reflexivity. Defined.

Lemma hidePoweredBy_spec_witness :
  exists p', hidePoweredBy Oak.OakRequestResponse (js_obj [("setTo", JString "PHP 4.2.0")]) oak_sample = (p', inr tt) /\
    hc_wf Oak.OakRequestResponse p' /\
    hc_view Oak.OakRequestResponse p' = <[hc_key Oak.OakRequestResponse "X-Powered-By" := hc_value Oak.OakRequestResponse "PHP 4.2.0"]>
                       (hc_view Oak.OakRequestResponse oak_sample) /\
    request p' = request oak_sample.
Proof.
  apply (hidePoweredBy_spec Oak.OakRequestResponse (js_obj [("setTo", JString "PHP 4.2.0")])); reflexivity.
Defined.

Lemma hidePoweredBy_reject_witness :
  exists e, hidePoweredBy Oak.OakRequestResponse (js_obj [("setTo", JString "a
b")]) oak_sample = (oak_sample, inl e).
Proof. apply (hidePoweredBy_reject Oak.OakRequestResponse); reflexivity. Defined.

Lemma dontSniffMimetype_spec_witness :
  exists p', dontSniffMimetype Oak.OakRequestResponse oak_sample = (p', inr tt) /\ hc_wf Oak.OakRequestResponse p' /\
    hc_view Oak.OakRequestResponse p' = <[hc_key Oak.OakRequestResponse "X-Content-Type-Options" := hc_value Oak.OakRequestResponse "nosniff"]>
                       (hc_view Oak.OakRequestResponse oak_sample) /\
    request p' = request oak_sample.
Proof. apply (dontSniffMimetype_spec Oak.OakRequestResponse); reflexivity. Defined.
End Witnesses.
