(* ===== verification/Loader.v ===== *)
(** * Loading the adapter: [await import(`./frameworks/${name}.ts`)]

    [Snelm.init] (src/mod.ts, lines 25-28) builds a module specifier from
    the framework name and imports it relative to mod.ts.  The specifier is
    parsed as a URL against mod.ts's [file:] URL: tabs and newlines are
    removed, the path stops at ['?'] or ['#'], ['/'] and ['\'] separate
    segments, dot segments (also written with ["%2e"]) are resolved; the
    resulting path is looked up among the repository's modules.  Nothing
    restricts the name: ["interface"] loads the interface module, which has
    no default export, and a name with [".."] segments and a trailing
    ['?'] reaches any module under src ([framework_name_is_a_path]).

    [module_table] lists the repository's modules by path from the
    repository root with the kind of their default export: the two adapter
    classes, the interface and mod.ts (no default export), the twelve
    directive modules mod.ts imports (a function), and the example programs
    under src/tests (no default export; the server an import of one starts
    is not modelled).  Importing a path not in the table rejects.

    Not modelled: percent-decoding of the path before the file is read
    (a name containing ['%'] other than in a dot segment is looked up
    undecoded), and files outside the repository. *)

From S2P Require Import Prelude.

(** The adapters of src/frameworks. *)
Inductive framework := FOak | FPogo.

#[export] Instance framework_eq_dec : EqDecision framework.
Proof. solve_decision. Defined.

(** The default export of a module. *)
Inductive default_export :=
  | ExportAdapter (f : framework)  (** an adapter class *)
  | ExportFunction                 (** a directive function *)
  | ExportNone.                    (** no default export: [undefined] *)

Definition directive_dirs : list string :=
  ["crossdomain"; "csp"; "dns-prefetch-control"; "dont-sniff-mimetype"; "expect-ct";
   "feature-policy"; "frameguard"; "hide-powered-by"; "hsts"; "ienoopen";
   "referrer-policy"; "x-xss-protection"].

(** The example programs under src/tests have no default export; importing
    one also starts its server, a side effect not modelled here. *)
Definition test_modules : list string :=
  ["src/tests/abc.ts"; "src/tests/alosaur.ts"; "src/tests/aqua.js"; "src/tests/attain.ts";
   "src/tests/oak.ts"; "src/tests/pogo.ts"; "src/tests/fresh/fresh.ts";
   "src/tests/fresh/routes/_middleware.ts"].

Definition module_table : list (string * default_export) :=
  [("src/frameworks/oak.ts", ExportAdapter FOak);
   ("src/frameworks/pogo.ts", ExportAdapter FPogo);
   ("src/frameworks/interface.ts", ExportNone);
   ("src/mod.ts", ExportNone)] ++
  map (fun d => ("src/deps/" +:+ d +:+ "/index.ts", ExportFunction)) directive_dirs ++
  map (fun t => (t, ExportNone)) test_modules.

Fixpoint table_lookup (path : string) (t : list (string * default_export)) : option default_export :=
  match t with
  | [] => None
  | (q, d) :: t' => if String.eqb path q then Some d else table_lookup path t'
  end.

(** ** The URL parser on a relative specifier

    [import(specifier)] parses the specifier as a URL against the URL of
    mod.ts (a [file:] URL, a special scheme).  The steps that matter for a
    specifier [./frameworks/<name>.ts]: every ASCII tab, LF and CR is
    removed; the path ends at the first ['?'] (query) or ['#'] (fragment);
    ['/'] and ['\'] both separate segments; ["."] and ["%2e"] are
    single-dot segments, [".."], [".%2e"], ["%2e."] and ["%2e%2e"]
    double-dot segments (ASCII case-insensitively); a dot segment at the
    end leaves an empty last segment. *)

Definition tab_or_newline (c : ascii) : bool :=
  let n := nat_of_ascii c in (n =? 9) || (n =? 10) || (n =? 13).

Fixpoint url_strip (s : string) : string :=
  match s with
  | EmptyString => EmptyString
  | String c s' => if tab_or_newline c then url_strip s' else String c (url_strip s')
  end.

Definition query_or_fragment (c : ascii) : bool := Ascii.eqb c "?" || Ascii.eqb c "#".

(** The part of the input the path state reads. *)
Fixpoint url_path_part (s : string) : string :=
  match s with
  | EmptyString => EmptyString
  | String c s' => if query_or_fragment c then EmptyString else String c (url_path_part s')
  end.

Definition path_separator (c : ascii) : bool := Ascii.eqb c "/" || Ascii.eqb c "\".

(** Split a path at its separators; [""] gives [[""]]. *)
Fixpoint split_path (s : string) : list string :=
  match s with
  | EmptyString => [EmptyString]
  | String c s' =>
      let rest := split_path s' in
      if path_separator c then EmptyString :: rest
      else match rest with
           | seg :: segs => String c seg :: segs
           | [] => [String c EmptyString]
           end
  end.

Definition single_dot_segment (seg : string) : bool :=
  String.eqb seg "." || String.eqb (lower seg) "%2e".

Definition double_dot_segment (seg : string) : bool :=
  String.eqb seg ".." || String.eqb (lower seg) ".%2e" || String.eqb (lower seg) "%2e." ||
  String.eqb (lower seg) "%2e%2e".

(** Resolve segments against a directory given as its reversed segment
    list; [None] when a double-dot segment leaves the repository. *)
Fixpoint resolve_segments (dir : list string) (segs : list string) : option (list string) :=
  match segs with
  | [] => Some (rev dir)
  | seg :: segs' =>
      if double_dot_segment seg then
        match dir with
        | [] => None
        | _ :: dir' => match segs' with
                       | [] => Some (rev (EmptyString :: dir'))
                       | _ => resolve_segments dir' segs'
                       end
        end
      else if single_dot_segment seg then
        match segs' with
        | [] => Some (rev (EmptyString :: dir))
        | _ => resolve_segments dir segs'
        end
      else resolve_segments (seg :: dir) segs'
  end.

Fixpoint join_path (segs : list string) : string :=
  match segs with
  | [] => EmptyString
  | [seg] => seg
  | seg :: segs' => seg +:+ "/" +:+ join_path segs'
  end.

(** [`./frameworks/${this._frameworkName}.ts`] *)
Definition module_specifier (frameworkName : string) : string :=
  "./frameworks/" +:+ frameworkName +:+ ".ts".

(** The directory of mod.ts, reversed. *)
Definition base_dir : list string := ["src"].

Definition resolve (frameworkName : string) : option string :=
  segs ← resolve_segments base_dir
           (split_path (url_path_part (url_strip (module_specifier frameworkName))));
  Some (join_path segs).

(** [import(specifier)]: the module's default export, or a rejection. *)
Definition import_default (frameworkName : string) : js_error + default_export :=
  match resolve frameworkName ≫= fun path => table_lookup path module_table with
  | Some d => inr d
  | None => inl (ModuleNotFound (module_specifier frameworkName))
  end.

(** ** Lemmas *)

(** Characters the URL preprocessing and the path state pass through
    unchanged, and characters of a plain path segment. *)
Definition url_char (c : ascii) : bool := negb (tab_or_newline c) && negb (query_or_fragment c).
Definition seg_char (c : ascii) : bool :=
  url_char c && negb (path_separator c) && negb (Ascii.eqb c "%").

Lemma url_path_app x y :
  forall_chars url_char x = true ->
  url_path_part (url_strip (x +:+ y)) = x +:+ url_path_part (url_strip y).
Proof.
  induction x as [|c x IH]; [done|]. intros Hx. simpl in Hx. unfold url_char in Hx.
  destruct (tab_or_newline c) eqn:T, (query_or_fragment c) eqn:Q; try done. simpl in Hx.
  change (String c x +:+ y) with (String c (x +:+ y)).
  change (String c x +:+ url_path_part (url_strip y)) with (String c (x +:+ url_path_part (url_strip y))).
  simpl. rewrite T. simpl. rewrite Q, IH by done. done.
Qed.

Lemma url_path_plain x : forall_chars url_char x = true -> url_path_part (url_strip x) = x.
Proof. intros H. rewrite <- (string_app_nil_r x), url_path_app by done. reflexivity. Qed.

Lemma split_path_cons t : exists seg segs, split_path t = seg :: segs.
Proof.
  induction t as [|c t (seg & segs & IH)]; simpl; [eauto|].
  rewrite IH. destruct (path_separator c); eauto.
Qed.

Lemma split_path_app s t :
  forall_chars (fun c => negb (path_separator c)) s = true ->
  split_path (s +:+ t) =
    match split_path t with seg :: segs => (s +:+ seg) :: segs | [] => [s] end.
Proof.
  induction s as [|c s IH]; simpl; intros H.
  - destruct (split_path_cons t) as (seg & segs & E). cbn. by rewrite E.
  - apply andb_prop in H as [Hc Hs]. rewrite (IH Hs).
    destruct (path_separator c); [done|]. by destruct (split_path t).
Qed.

Lemma split_path_slash s t :
  forall_chars (fun c => negb (path_separator c)) s = true ->
  split_path (s +:+ String "/" t) = s :: split_path t.
Proof.
  intros H. rewrite (split_path_app s (String "/" t) H). cbn.
  by rewrite string_app_nil_r.
Qed.

Lemma split_path_plain s :
  forall_chars (fun c => negb (path_separator c)) s = true -> split_path s = [s].
Proof. intros H. rewrite <- (string_app_nil_r s), split_path_app by done. reflexivity. Qed.

Lemma seg_char_sep s :
  forall_chars seg_char s = true -> forall_chars (fun c => negb (path_separator c)) s = true.
Proof.
  apply forall_chars_impl. intros c. unfold seg_char.
  by destruct (url_char c), (path_separator c).
Qed.

Lemma seg_char_url s : forall_chars seg_char s = true -> forall_chars url_char s = true.
Proof. apply forall_chars_impl. intros c. unfold seg_char. by destruct (url_char c). Qed.

(** Round trip: splitting a joined list of separator-free segments. *)
Lemma split_join segs :
  segs <> [] -> Forall (fun s => forall_chars (fun c => negb (path_separator c)) s = true) segs ->
  split_path (join_path segs) = segs.
Proof.
  induction segs as [|s [|s' segs] IH]; intros Hne Hf; [done| |].
  - apply Forall_cons in Hf as [Hs _]. by apply split_path_plain.
  - apply Forall_cons in Hf as [Hs Hf].
    change (join_path (s :: s' :: segs)) with (s +:+ String "/" (join_path (s' :: segs))).
    rewrite split_path_slash, IH by done. done.
Qed.

(** A plain segment: separator-free, no ['%'], and not a dot segment. *)
Definition plain_segment (s : string) : bool :=
  forall_chars seg_char s && negb (String.eqb s ".") && negb (String.eqb s "..").

Lemma ascii_lower_pct c : Ascii.eqb (ascii_lower c) "%" = Ascii.eqb c "%".
Proof. destruct c as [[] [] [] [] [] [] [] []]; reflexivity. Qed.

Lemma lower_no_pct s :
  forall_chars (fun c => negb (Ascii.eqb c "%")) s = true ->
  forall_chars (fun c => negb (Ascii.eqb c "%")) (lower s) = true.
Proof.
  induction s as [|c s IH]; [done|]. simpl. rewrite ascii_lower_pct.
  intros [Hc Hs]%andb_prop. by rewrite Hc, IH.
Qed.

Lemma plain_segment_not_dot s :
  plain_segment s = true -> single_dot_segment s = false /\ double_dot_segment s = false.
Proof.
  unfold plain_segment, single_dot_segment, double_dot_segment.
  destruct (forall_chars seg_char s) eqn:Hs, (String.eqb s "."), (String.eqb s ".."); try done.
  intros _. simpl.
  assert (Hl : forall_chars (fun c => negb (Ascii.eqb c "%")) (lower s) = true).
  { apply lower_no_pct. revert Hs. apply forall_chars_impl. intros c. unfold seg_char.
    by destruct (url_char c && negb (path_separator c)). }
  assert (Hp : forall L, forall_chars (fun c => negb (Ascii.eqb c "%")) L = false -> lower s <> L).
  { intros L HL E. rewrite E in Hl. congruence. }
  repeat rewrite (proj2 (String.eqb_neq _ _)) by (apply Hp; reflexivity). done.
Qed.

Lemma resolve_segments_plain dir segs :
  Forall (fun s => plain_segment s = true) segs -> resolve_segments dir segs = Some (rev dir ++ segs).
Proof.
  revert dir. induction segs as [|s segs IH]; intros dir Hf; simpl; [by rewrite app_nil_r|].
  apply Forall_cons in Hf as [Hs Hf]. destruct (plain_segment_not_dot s Hs) as [-> ->].
  rewrite IH by done. simpl. by rewrite <- app_assoc.
Qed.

Lemma plain_segment_sep s :
  plain_segment s = true -> forall_chars (fun c => negb (path_separator c)) s = true.
Proof. unfold plain_segment. intros [[Hs _]%andb_prop _]%andb_prop. by apply seg_char_sep. Qed.

Lemma resolve_segments_single dir seg segs :
  single_dot_segment seg = true -> double_dot_segment seg = false -> segs <> [] ->
  resolve_segments dir (seg :: segs) = resolve_segments dir segs.
Proof. intros Hs Hd Hne. simpl. rewrite Hd, Hs. by destruct segs. Qed.

Lemma resolve_segments_double d dir seg segs :
  double_dot_segment seg = true -> segs <> [] ->
  resolve_segments (d :: dir) (seg :: segs) = resolve_segments dir segs.
Proof. intros Hd Hne. simpl. rewrite Hd. by destruct segs. Qed.

Lemma join_url segs :
  Forall (fun s => plain_segment s = true) segs -> forall_chars url_char (join_path segs) = true.
Proof.
  induction segs as [|s [|s' segs] IH]; intros Hf; [done| |].
  - apply Forall_cons in Hf as [Hs _]. unfold plain_segment in Hs.
    apply andb_prop in Hs as [[Hs _]%andb_prop _]. by apply seg_char_url.
  - apply Forall_cons in Hf as [Hs Hf]. unfold plain_segment in Hs.
    apply andb_prop in Hs as [[Hs _]%andb_prop _].
    change (join_path (s :: s' :: segs)) with (s +:+ String "/" (join_path (s' :: segs))).
    rewrite forall_chars_app, seg_char_url by done. simpl. by apply IH.
Qed.

(** ** The framework name is a path *)

(** C19: a name made of plain characters (no separator ['/'] or ['\'],
    no ['?'], ['#'], ['%'], tab or newline) is the file
    [src/frameworks/<name>.ts]. *)
Lemma resolve_plain_name name :
  forall_chars seg_char name = true ->
  resolve name = Some ("src/frameworks/" +:+ name +:+ ".ts").
Proof.
  intros H. unfold resolve, module_specifier.
  rewrite url_path_plain by (rewrite !forall_chars_app, (seg_char_url _ H); reflexivity).
  change ("./frameworks/" +:+ name +:+ ".ts")
    with ("." +:+ String "/" ("frameworks" +:+ String "/" (name +:+ ".ts"))).
  assert (Hp : plain_segment (name +:+ ".ts") = true).
  { unfold plain_segment. rewrite forall_chars_app, H. simpl.
    assert (Hd : String.eqb (name +:+ ".ts") "." = false /\ String.eqb (name +:+ ".ts") ".." = false).
    { split; apply String.eqb_neq; intros E; apply (f_equal String.length) in E;
        rewrite string_length_app in E; simpl in E; lia. }
    by destruct Hd as [-> ->]. }
  rewrite (split_path_slash "." _ eq_refl), (split_path_slash "frameworks" _ eq_refl),
    (split_path_plain _ (plain_segment_sep _ Hp)).
  rewrite resolve_segments_single, resolve_segments_plain by (repeat constructor; done).
  reflexivity.
Qed.

Lemma resolve_plain_name_witness : resolve "oak" = Some "src/frameworks/oak.ts".
Proof. apply resolve_plain_name. reflexivity. Defined.

(** C18: the framework name is a path.  For every non-empty list of plain
    segments, the name ["../" ++ segments ++ "?"] resolves to
    [src/<segments>]: the ["?"] turns the appended [".ts"] into a query,
    so any file under src, of any extension, can be imported. *)
Theorem framework_name_is_a_path segs :
  segs <> [] -> Forall (fun s => plain_segment s = true) segs ->
  resolve ("../" +:+ join_path segs +:+ "?") = Some ("src/" +:+ join_path segs).
Proof.
  intros Hne Hf. unfold resolve, module_specifier.
  assert (E : "./frameworks/" +:+ ("../" +:+ join_path segs +:+ "?") +:+ ".ts" =
              ("./frameworks/../" +:+ join_path segs) +:+ String "?" ".ts").
  { rewrite <- !string_app_assoc. reflexivity. }
  rewrite E, url_path_app by (rewrite forall_chars_app, join_url by done; reflexivity).
  change (url_path_part (url_strip (String "?" ".ts"))) with EmptyString.
  rewrite string_app_nil_r.
  change ("./frameworks/../" +:+ join_path segs)
    with ("." +:+ String "/" ("frameworks" +:+ String "/" (".." +:+ String "/" (join_path segs)))).
  rewrite (split_path_slash "." _ eq_refl), (split_path_slash "frameworks" _ eq_refl),
    (split_path_slash ".." _ eq_refl), split_join
    by (done || (eapply Forall_impl; [exact Hf | apply plain_segment_sep])).
  rewrite resolve_segments_single by done.
  change (resolve_segments base_dir ("frameworks" :: ".." :: segs))
    with (resolve_segments ["frameworks"; "src"] (".." :: segs)).
  rewrite resolve_segments_double, resolve_segments_plain by done.
  destruct segs as [|s segs]; [done|]. simpl. by destruct segs.
Qed.

Lemma framework_name_is_a_path_witness :
  resolve ("../" +:+ join_path ["deps"; "hide-powered-by"; "index.ts"] +:+ "?") =
  Some ("src/" +:+ join_path ["deps"; "hide-powered-by"; "index.ts"]).
Proof. apply framework_name_is_a_path; [done | repeat constructor]. Defined.
