(* ===== verification/Snelm.v ===== *)
(** * The orchestrator: class [Snelm] of src/mod.ts

    [Snelm] keeps three fields: the framework name and the options given to
    the constructor, and the adapter class [init] loads.  [snelm(request,
    response)] wraps the two natives in a fresh adapter instance, runs the
    twelve directives in a fixed order, skipping each whose option is
    [null], and returns the native response it mutated in place.

    - [Snelm] (record), [new_Snelm], [init], [snelm]: the class, its
      constructor and its two methods.  [init] is the asynchronous step:
      while its import is pending nothing changes, and a rejected import
      leaves the object as it was; it is modelled as one atomic step.
    - The nine directives whose modules are not in the repository's
      sources ([crossdomain], [csp], [expect-ct], [feature-policy],
      [frameguard], [hsts], [ienoopen], [referrer-policy],
      [x-xss-protection]) are parameters: a record [external_directives]
      of functions over the interface.  Every theorem holds for all of
      them, under the stated frame hypothesis where one is needed.
    - [directive], [registry], [pipeline], [enabled]: the fixed order as
      data; with non-nullish options the method body runs exactly the
      calls of [enabled] ([snelm_enabled_calls]).
    - [snelm_refines]: what an invocation does to the response headers,
      against the abstract program [snelm_ops]; [snelm_error_prefix]: what
      it has done when it throws; [snelm_ops_bounds]: how much it does;
      [snelm_preserves]: a property of the natives every directive keeps
      holds after any invocation.
    - Lifecycle.v refines the atomic [init] into its call and its
      settlement and states the invariants of the object. *)

From S2P Require Import Prelude JsValue WebHeaders Interface Adapters Directives Loader.
Local Open Scope js_scope.

(** The value of [this._fameworkLib]. *)
Inductive framework_lib :=
  | LibUndefined              (** before [init], or a module with no default export *)
  | LibClass (f : framework)  (** an adapter class *)
  | LibFunction.              (** a directive function loaded by a crafted name *)

#[export] Instance framework_lib_eq_dec : EqDecision framework_lib.
Proof. solve_decision. Defined.

(** [this._fameworkLib = (await import(..)).default] *)
Definition lib_of_export (d : default_export) : framework_lib :=
  match d with
  | ExportAdapter f => LibClass f
  | ExportFunction => LibFunction
  | ExportNone => LibUndefined
  end.

Record Snelm := mkSnelm {
  _frameworkName : string;
  _options : js_value;
  _fameworkLib : framework_lib;
}.

(** [constructor(frameworkName, options = {})]: the default applies when
    the argument is [undefined] or omitted. *)
Definition new_Snelm (frameworkName : string) (options : js_value) : Snelm :=
  {| _frameworkName := frameworkName;
     _options := match options with JUndefined => js_obj [] | o => o end;
     _fameworkLib := LibUndefined |}.

(** [async init()] *)
Definition init : jsm Snelm unit :=
  s <- jget ;;
  d <- jlift (import_default (_frameworkName s)) ;;
  jput {| _frameworkName := _frameworkName s; _options := _options s;
          _fameworkLib := lib_of_export d |}.

Definition adapter_of (f : framework) : RequestResponseInterface :=
  match f with
  | FOak => Oak.OakRequestResponse
  | FPogo => Pogo.PogoRequestResponse
  end.

(** [new this._fameworkLib(request, response)]: [undefined] is not a
    constructor; a directive function run as a constructor calls a method
    of the interface on the native request, which has none. *)
Definition construct (lib : framework_lib) : js_error + RequestResponseInterface :=
  match lib with
  | LibClass f => inr (adapter_of f)
  | LibUndefined => inl (TypeError NotAConstructor)
  | LibFunction => inl (TypeError NotAFunction)
  end.

(** The directives whose source is not in the repository. *)
Record external_directives := {
  crossDomain : RequestResponseInterface -> js_value -> jsm adapted unit;
  csp : RequestResponseInterface -> js_value -> jsm adapted unit;
  expectCt : RequestResponseInterface -> js_value -> jsm adapted unit;
  featurePolicy : RequestResponseInterface -> js_value -> jsm adapted unit;
  frameguard : RequestResponseInterface -> js_value -> jsm adapted unit;
  hsts : RequestResponseInterface -> js_value -> jsm adapted unit;
  ieNoOpen : RequestResponseInterface -> jsm adapted unit;
  referrerPolicy : RequestResponseInterface -> js_value -> jsm adapted unit;
  xssProtection : RequestResponseInterface -> js_value -> jsm adapted unit;
}.

(** [if (this._options.<key> !== null) run(this._options.<key>)]: the
    option is read once for the test and once for the call. *)
Definition when_set (options : js_value) (key : string) (run : js_value -> jsm adapted unit)
  : jsm adapted unit :=
  o <- jlift (js_get options key) ;;
  if js_not_null o then (o' <- jlift (js_get options key) ;; run o') else jret tt.

(** [snelm(request, response)]; the state is the pair of natives the new
    adapter instance wraps. *)
Definition snelm (ext : external_directives) (s : Snelm) : jsm adapted native :=
  requestResponse <- jlift (construct (_fameworkLib s)) ;;
  when_set (_options s) "crossDomain" (crossDomain ext requestResponse) ;;
  when_set (_options s) "csp" (csp ext requestResponse) ;;
  when_set (_options s) "dnsPrefetchControl"
    (DnsPrefetchControl.dnsPrefetchControl requestResponse) ;;
  when_set (_options s) "dontSniffMimetype"
    (fun _ => DontSniffMimetype.dontSniffMimetype requestResponse) ;;
  when_set (_options s) "expectCt" (expectCt ext requestResponse) ;;
  when_set (_options s) "featurePolicy" (featurePolicy ext requestResponse) ;;
  when_set (_options s) "frameguard" (frameguard ext requestResponse) ;;
  when_set (_options s) "hidePoweredBy" (HidePoweredBy.hidePoweredBy requestResponse) ;;
  when_set (_options s) "hsts" (hsts ext requestResponse) ;;
  when_set (_options s) "ieNoOpen" (fun _ => ieNoOpen ext requestResponse) ;;
  when_set (_options s) "referrerPolicy" (referrerPolicy ext requestResponse) ;;
  when_set (_options s) "xssProtection" (xssProtection ext requestResponse) ;;
  p <- jget ;;
  jret (response p).

(** ** The directive registry *)

Inductive directive :=
  | DCrossDomain | DCsp | DDnsPrefetchControl | DDontSniffMimetype | DExpectCt
  | DFeaturePolicy | DFrameguard | DHidePoweredBy | DHsts | DIeNoOpen
  | DReferrerPolicy | DXssProtection.

#[export] Instance directive_eq_dec : EqDecision directive.
Proof. solve_decision. Defined.

(** The order of the [if] statements of [snelm]. *)
Definition registry : list directive :=
  [DCrossDomain; DCsp; DDnsPrefetchControl; DDontSniffMimetype; DExpectCt;
   DFeaturePolicy; DFrameguard; DHidePoweredBy; DHsts; DIeNoOpen;
   DReferrerPolicy; DXssProtection].

Definition option_key (d : directive) : string :=
  match d with
  | DCrossDomain => "crossDomain" | DCsp => "csp"
  | DDnsPrefetchControl => "dnsPrefetchControl" | DDontSniffMimetype => "dontSniffMimetype"
  | DExpectCt => "expectCt" | DFeaturePolicy => "featurePolicy"
  | DFrameguard => "frameguard" | DHidePoweredBy => "hidePoweredBy"
  | DHsts => "hsts" | DIeNoOpen => "ieNoOpen"
  | DReferrerPolicy => "referrerPolicy" | DXssProtection => "xssProtection"
  end.

Definition run_directive (ext : external_directives) (rr : RequestResponseInterface)
    (d : directive) (o : js_value) : jsm adapted unit :=
  match d with
  | DCrossDomain => crossDomain ext rr o
  | DCsp => csp ext rr o
  | DDnsPrefetchControl => DnsPrefetchControl.dnsPrefetchControl rr o
  | DDontSniffMimetype => DontSniffMimetype.dontSniffMimetype rr
  | DExpectCt => expectCt ext rr o
  | DFeaturePolicy => featurePolicy ext rr o
  | DFrameguard => frameguard ext rr o
  | DHidePoweredBy => HidePoweredBy.hidePoweredBy rr o
  | DHsts => hsts ext rr o
  | DIeNoOpen => ieNoOpen ext rr
  | DReferrerPolicy => referrerPolicy ext rr o
  | DXssProtection => xssProtection ext rr o
  end.

Definition is_external (d : directive) : bool :=
  match d with
  | DDnsPrefetchControl | DDontSniffMimetype | DHidePoweredBy => false
  | _ => true
  end.

(** Run the directives [ds] in order, each guarded by its option, then [k]. *)
Fixpoint pipeline {A} (ext : external_directives) (rr : RequestResponseInterface)
    (options : js_value) (ds : list directive) (k : jsm adapted A) : jsm adapted A :=
  match ds with
  | [] => k
  | d :: ds' => when_set options (option_key d) (run_directive ext rr d) ;;
                pipeline ext rr options ds' k
  end.

(** The directives that run, with the option each receives. *)
Fixpoint enabled (options : js_value) (ds : list directive) : list (directive * js_value) :=
  match ds with
  | [] => []
  | d :: ds' =>
      match js_get options (option_key d) with
      | inr o => if js_not_null o then (d, o) :: enabled options ds' else enabled options ds'
      | inl _ => []
      end
  end.

Fixpoint run_calls {A} (ext : external_directives) (rr : RequestResponseInterface)
    (cs : list (directive * js_value)) (k : jsm adapted A) : jsm adapted A :=
  match cs with
  | [] => k
  | (d, o) :: cs' => run_directive ext rr d o ;; run_calls ext rr cs' k
  end.

Definition js_nonnullish (v : js_value) : bool :=
  match v with JUndefined | JNull => false | _ => true end.

(** [return requestResponse.response] *)
Definition return_response : jsm adapted native := p <- jget ;; jret (response p).

(** [requestResponse.response] on an instance of the adapter class: its
    [get response()]. *)
Definition adapter_response (f : framework) : jsm adapted native :=
  match f with
  | FOak => Oak.response_getter
  | FPogo => Pogo.response_getter
  end.

(** Both getters return the wrapped response, as [return_response] does. *)
Lemma return_response_getter f p : adapter_response f p = return_response p.
Proof. by destruct f. Qed.

(** ** The method body is the registry pipeline *)

Lemma run_calls_cons {A} ext rr d o cs (k : jsm adapted A) p :
  run_calls ext rr ((d, o) :: cs) k p = jbind (run_directive ext rr d o) (fun _ => run_calls ext rr cs k) p.
Proof. reflexivity. Qed.

Lemma pipeline_enabled {A} ext rr options ds (k : jsm adapted A) p :
  js_nonnullish options = true ->
  pipeline ext rr options ds k p = run_calls ext rr (enabled options ds) k p.
Proof.
  intros Hn. revert p. induction ds as [|d ds IH]; intros p; [done|]. simpl.
  unfold when_set, jbind at 2, jlift.
  destruct (js_get_ok_or_nullish options (option_key d)) as [[w Hw]|Hw].
  - rewrite Hw. destruct (js_not_null w).
    + rewrite run_calls_cons. unfold jbind.
      destruct (run_directive ext rr d w p) as [p' [e|[]]]; [done|]. apply IH.
    + apply IH.
  - apply js_get_nullish in Hw as [-> | ->]; discriminate.
Qed.

Lemma snelm_enabled_calls ext s f p :
  _fameworkLib s = LibClass f -> js_nonnullish (_options s) = true ->
  snelm ext s p = run_calls ext (adapter_of f) (enabled (_options s) registry) return_response p.
Proof.
  intros Hl Hn. change (snelm ext s p) with
    ((rr <- jlift (construct (_fameworkLib s)) ;;
      pipeline ext rr (_options s) registry return_response) p).
  unfold jbind at 1, jlift, construct. rewrite Hl. by apply pipeline_enabled.
Qed.


Lemma enabled_In options ds d o :
  js_nonnullish options = true ->
  (d, o) ∈ enabled options ds <->
  d ∈ ds /\ js_get options (option_key d) = inr o /\ o <> JNull.
Proof.
  intros Hn. induction ds as [|d' ds IH]; simpl.
  - split; [intros H%elem_of_nil; done | intros (H%elem_of_nil & _); done].
  - destruct (js_get_ok_or_nullish options (option_key d')) as [[w Hw]|Hw];
      [|apply js_get_nullish in Hw as [-> | ->]; discriminate].
    rewrite Hw, elem_of_cons.
    destruct (js_not_null w) eqn:Hnn; rewrite ?elem_of_cons, IH.
    + split.
      * intros [Heq | (Hin & Hg & Ho)].
        -- injection Heq as -> ->. split; [by left|]. split; [done|]. by destruct w.
        -- split; [by right|]. done.
      * intros [[-> | Hin] [Hg Ho]].
        -- rewrite Hw in Hg. injection Hg as <-. by left.
        -- right. done.
    + split.
      * intros (Hin & Hg & Ho). split; [by right|]. done.
      * intros [[-> | Hin] [Hg Ho]].
        -- rewrite Hw in Hg. injection Hg as <-. by destruct w.
        -- done.
Qed.

Lemma registry_complete d : d ∈ registry.
Proof. destruct d; set_solver. Qed.

(** C2: a directive runs, with [options.<key>] as its options, exactly when
    [options.<key> !== null]; an absent key ([undefined]) runs it with its
    default. *)
Theorem directive_runs_iff options d o :
  js_nonnullish options = true ->
  (d, o) ∈ enabled options registry <-> js_get options (option_key d) = inr o /\ o <> JNull.
Proof.
  intros Hn. rewrite enabled_In by done. split; [by intros (_ & ?)|].
  intros ?. split; [apply registry_complete|done].
Qed.

Lemma enabled_sublist options ds : sublist (map fst (enabled options ds)) ds.
Proof.
  induction ds as [|d ds IH]; simpl; [constructor|].
  destruct (js_get options (option_key d)) as [e|o]; [apply sublist_nil_l|].
  destruct (js_not_null o); simpl; by constructor.
Qed.

(** ** Properties of the natives every directive keeps *)

Lemma when_set_preserves (P : adapted -> Prop) options key run :
  (forall o, preserves P (run o)) -> preserves P (when_set options key run).
Proof.
  intros Hr. unfold when_set. apply preserves_bind; [apply preserves_lift|].
  intros o. destruct (js_not_null o); auto with snelm.
Qed.

(** A property of the natives that every directive keeps, whether it
    succeeds or throws, holds after [snelm], whether it succeeds or throws,
    for any options. *)
Lemma snelm_preserves (P : adapted -> Prop) ext s f :
  _fameworkLib s = LibClass f ->
  (forall d o, preserves P (run_directive ext (adapter_of f) d o)) ->
  preserves P (snelm ext s).
Proof.
  intros Hl Hd p Hp.
  change (snelm ext s p) with
    ((rr <- jlift (construct (_fameworkLib s)) ;;
      pipeline ext rr (_options s) registry return_response) p).
  unfold jbind at 1, jlift, construct. rewrite Hl.
  revert p Hp. generalize registry as ds. induction ds as [|d ds IH]; intros p Hp.
  - done.
  - apply (preserves_bind P _ (fun _ => pipeline ext _ (_options s) ds return_response));
      [by apply when_set_preserves | intros _ q; apply IH | done].
Qed.

(** ** Error paths *)

Lemma snelm_undefined_lib ext s p :
  _fameworkLib s = LibUndefined -> snelm ext s p = (p, inl (TypeError NotAConstructor)).
Proof. intros Hl. unfold snelm, jbind at 1, jlift, construct. by rewrite Hl. Qed.

(** C14: invoking before [init] (or after an [init] that left the library
    [undefined]) throws "not a constructor" and mutates nothing. *)
Theorem snelm_not_initialized ext s p :
  _fameworkLib s = LibUndefined -> snelm ext s p = (p, inl (TypeError NotAConstructor)).
Proof. exact (snelm_undefined_lib ext s p). Qed.

(** C15: [new Snelm(name, null)] passes the [= {}] default by: the first
    option read throws before any directive runs. *)
Theorem snelm_null_options ext s f p :
  _fameworkLib s = LibClass f -> _options s = JNull ->
  snelm ext s p = (p, inl (TypeError ReadOfNullish)).
Proof. intros Hl Ho. unfold snelm, when_set, jbind, jlift, construct. by rewrite Hl, Ho. Qed.

(** ** [init] *)

Lemma init_ok s d :
  import_default (_frameworkName s) = inr d ->
  init s = ({| _frameworkName := _frameworkName s; _options := _options s;
               _fameworkLib := lib_of_export d |}, inr tt).
Proof. intros H. unfold init, jbind, jlift, jget, jput. by rewrite H. Qed.

Lemma init_err s e :
  import_default (_frameworkName s) = inl e -> init s = (s, inl e).
Proof. intros H. unfold init, jbind, jlift, jget. by rewrite H. Qed.

(** C16: a rejected import leaves the object unchanged. *)
Theorem init_reject s e :
  import_default (_frameworkName s) = inl e -> init s = (s, inl e).
Proof. exact (init_err s e). Qed.

(** C17: [init] is idempotent: a second call after a successful one changes
    nothing. *)
Theorem init_idempotent s s' :
  init s = (s', inr tt) -> init s' = (s', inr tt).
Proof.
  unfold init, jbind, jlift, jget, jput. simpl.
  destruct (import_default (_frameworkName s)) as [e|d] eqn:E; [done|].
  intros [= <-]. simpl. by rewrite E.
Qed.


(** A library that is [undefined] or the default export the name resolves
    to: [snelm] throws before touching the natives, or the library is the
    adapter class the name resolves to. *)
Lemma lib_snelm_safe name s ext p :
  (_fameworkLib s = LibUndefined \/
   exists d, import_default name = inr d /\ _fameworkLib s = lib_of_export d) ->
  (exists e, snelm ext s p = (p, inl (TypeError e))) \/
  (exists f, import_default name = inr (ExportAdapter f) /\ _fameworkLib s = LibClass f).
Proof.
  intros [Hl | (d & Hd & Hl)].
  - left. exists NotAConstructor. by apply snelm_undefined_lib.
  - destruct d as [f| |]; simpl in Hl.
    + right. eauto.
    + left. exists NotAFunction. unfold snelm, jbind at 1, jlift, construct. by rewrite Hl.
    + left. exists NotAConstructor. by apply snelm_undefined_lib.
Qed.

(** The object after an [init], and after a second one: the same. *)
Lemma init_fst_idem s : fst (init (fst (init s))) = fst (init s).
Proof.
  destruct (import_default (_frameworkName s)) as [e|d] eqn:E.
  - rewrite (init_err s e E). simpl. by rewrite (init_err s e E).
  - rewrite (init_ok s d E). simpl. rewrite (init_ok _ d); [done | exact E].
Qed.

(** ** Refinement: what [snelm] does to the response headers *)

(** The header operations of the three directives of the repository. *)
Definition src_ops (d : directive) (o : js_value) : list header_op :=
  match d with
  | DDnsPrefetchControl => DnsPrefetchControl.dns_ops o
  | DDontSniffMimetype => DontSniffMimetype.nosniff_ops
  | DHidePoweredBy => HidePoweredBy.hide_ops o
  | _ => []
  end.

Definition calls_ops (cs : list (directive * js_value)) : list header_op :=
  List.concat (map (fun '(d, o) => src_ops d o) cs).

(** The canonical (lower-cased) names of the headers the three directives
    of the repository write. *)
Definition src_keys : list string :=
  ["x-dns-prefetch-control"; "x-content-type-options"; "x-powered-by"].

(** The abstract program of an invocation with the given options. *)
Definition snelm_ops (options : js_value) : list header_op :=
  calls_ops (enabled options registry).

Lemma src_ops_shape d o :
  List.length (src_ops d o) = (if is_external d then 0 else 1) /\
  Forall (fun op => lower (op_key op) ∈ src_keys) (src_ops d o).
Proof.
  destruct d; simpl; unfold DnsPrefetchControl.dns_ops, DontSniffMimetype.nosniff_ops,
    HidePoweredBy.hide_ops; try destruct (js_truthy _); (split; [done|]);
    repeat constructor; apply (bool_decide_unpack _); vm_compute; reflexivity.
Qed.

Lemma calls_ops_shape cs :
  List.length (calls_ops cs) = List.length (filter (fun d => negb (is_external d)) (map fst cs)) /\
  Forall (fun op => lower (op_key op) ∈ src_keys) (calls_ops cs).
Proof.
  induction cs as [|[d o] cs [IHl IHf]]; [split; [done | constructor]|].
  change (calls_ops ((d, o) :: cs)) with (src_ops d o ++ calls_ops cs).
  destruct (src_ops_shape d o) as [Hl Hf].
  rewrite length_app, Forall_app, Hl, IHl. simpl.
  destruct (is_external d) eqn:He; simpl.
  - rewrite filter_cons_False by (rewrite He; cbv; tauto). auto.
  - rewrite filter_cons_True by (rewrite He; cbv; tauto). simpl. auto.
Qed.

Lemma run_directive_src ext rr d o p :
  is_external d = false -> run_directive ext rr d o p = run_ops rr (src_ops d o) p.
Proof.
  destruct d; try discriminate; intros _; simpl.
  - apply DnsPrefetchControl.dnsPrefetchControl_is_ops.
  - apply DontSniffMimetype.dontSniffMimetype_is_ops.
  - apply HidePoweredBy.hidePoweredBy_is_ops.
Qed.

Lemma src_ops_external d o : is_external d = true -> src_ops d o = [].
Proof. by destruct d. Qed.

(** C21: bounds.  An invocation runs at most the twelve directives of the
    registry and performs at most three header operations of the
    repository's directives, each on one of the three keys [src_keys];
    every other response header is left as it was. *)
Theorem snelm_ops_bounds options :
  List.length (enabled options registry) <= 12 /\ List.length (snelm_ops options) <= 3 /\
  Forall (fun op => lower (op_key op) ∈ src_keys) (snelm_ops options) /\
  forall m x, x ∉ src_keys -> abs_ops lower normalize_header_value (snelm_ops options) m !! x = m !! x.
Proof.
  pose proof (enabled_sublist options registry) as Hs.
  destruct (calls_ops_shape (enabled options registry)) as [Hl Hf].
  unfold snelm_ops. split; [|split; [|split; [done|]]].
  - apply sublist_length in Hs. by rewrite length_map in Hs.
  - rewrite Hl. apply (filter_sublist_mono (fun d => negb (is_external d))) in Hs.
    apply sublist_length in Hs. exact Hs.
  - intros m x Hx. apply abs_ops_lookup_other.
    eapply Forall_impl; [exact Hf|]. intros op Hop E. apply Hx. by rewrite <- E.
Qed.

Section Refinement.
Context (ext : external_directives) (f : framework) `{!HeaderContract (adapter_of f)}.
Context (K : list string).

(** The frame hypothesis on the directives outside the repository: on
    the natives the adapter supports they succeed, keep them supported,
    leave the request alone and do not touch the canonical keys [K]. *)
Definition ext_frame : Prop :=
  forall d o p, is_external d = true -> hc_wf (adapter_of f) p ->
    exists p', run_directive ext (adapter_of f) d o p = (p', inr tt) /\
      hc_wf (adapter_of f) p' /\ request p' = request p /\
      forall k, k ∈ K -> hc_view (adapter_of f) p' !! k = hc_view (adapter_of f) p !! k.

Lemma run_calls_refines {A} (k : jsm adapted A) cs p :
  ext_frame -> hc_wf (adapter_of f) p ->
  forallb (op_ok (adapter_of f)) (calls_ops cs) = true ->
  exists p', run_calls ext (adapter_of f) cs k p = k p' /\ hc_wf (adapter_of f) p' /\
    request p' = request p /\
    forall x, x ∈ K -> hc_view (adapter_of f) p' !! x =
      abs_ops (hc_key (adapter_of f)) (hc_value (adapter_of f)) (calls_ops cs)
        (hc_view (adapter_of f) p) !! x.
Proof.
  intros Hext. revert p. induction cs as [|[d o] cs IH]; intros p Hwf Hok; [by exists p|].
  change (calls_ops ((d, o) :: cs)) with (src_ops d o ++ calls_ops cs) in *.
  rewrite forallb_app in Hok. apply andb_prop in Hok as [Hd Hcs].
  rewrite run_calls_cons, abs_ops_app.
  destruct (is_external d) eqn:He.
  - destruct (Hext d o p He Hwf) as (p1 & E1 & Hwf1 & Hr1 & Hk1).
    destruct (IH p1 Hwf1 Hcs) as (p2 & E2 & Hwf2 & Hr2 & Hk2).
    exists p2. rewrite (jbind_ok _ _ _ _ _ E1), src_ops_external by done.
    split; [done|]. split; [done|]. split; [congruence|].
    intros x Hx. rewrite Hk2 by done. apply abs_ops_lookup_local. by apply Hk1.
  - destruct (run_ops_refines (adapter_of f) (src_ops d o) p Hwf Hd)
      as (p1 & E1 & Hwf1 & Hv1 & Hr1).
    destruct (IH p1 Hwf1 Hcs) as (p2 & E2 & Hwf2 & Hr2 & Hk2).
    exists p2. rewrite (jbind_ok _ _ _ _ _ (eq_trans (run_directive_src ext _ d o p He) E1)).
    split; [done|]. split; [done|]. split; [congruence|].
    intros x Hx. by rewrite Hk2, Hv1.
Qed.

Lemma snelm_abstract_program s p :
  ext_frame -> _fameworkLib s = LibClass f -> js_nonnullish (_options s) = true ->
  hc_wf (adapter_of f) p ->
  forallb (op_ok (adapter_of f)) (snelm_ops (_options s)) = true ->
  exists p', snelm ext s p = (p', inr (response p')) /\ hc_wf (adapter_of f) p' /\
    request p' = request p /\
    forall x, x ∈ K -> hc_view (adapter_of f) p' !! x =
      abs_ops (hc_key (adapter_of f)) (hc_value (adapter_of f)) (snelm_ops (_options s))
        (hc_view (adapter_of f) p) !! x.
Proof.
  intros Hext Hl Hn Hwf Hok. rewrite (snelm_enabled_calls ext s f p Hl Hn).
  destruct (run_calls_refines return_response _ p Hext Hwf Hok) as (p' & E & ?).
  exists p'. by rewrite E.
Qed.

(** C1: refinement.  An initialised [Snelm] with non-nullish options,
    invoked on natives its adapter supports, returns the response it
    mutated, never touches the request, and leaves every canonical key of
    [K] as the abstract program [snelm_ops options] sets it. *)
Theorem snelm_refines s p :
  ext_frame -> _fameworkLib s = LibClass f -> js_nonnullish (_options s) = true ->
  hc_wf (adapter_of f) p ->
  forallb (op_ok (adapter_of f)) (snelm_ops (_options s)) = true ->
  exists p', snelm ext s p = (p', inr (response p')) /\ hc_wf (adapter_of f) p' /\
    request p' = request p /\
    forall x, x ∈ K -> hc_view (adapter_of f) p' !! x =
      abs_ops (hc_key (adapter_of f)) (hc_value (adapter_of f)) (snelm_ops (_options s))
        (hc_view (adapter_of f) p) !! x.
Proof. exact (snelm_abstract_program s p). Qed.

(** The calls of a pipeline either run to the end or stop at the first
    header operation the adapter rejects, after the operations before it. *)
Lemma run_calls_error {A} (k : jsm adapted A) cs p p' e :
  ext_frame -> hc_wf (adapter_of f) p -> (forall q, exists a, k q = (q, inr a)) ->
  run_calls ext (adapter_of f) cs k p = (p', inl e) ->
  exists pre o post, calls_ops cs = pre ++ o :: post /\
    forallb (op_ok (adapter_of f)) pre = true /\ op_ok (adapter_of f) o = false /\
    hc_wf (adapter_of f) p' /\ request p' = request p /\
    forall x, x ∈ K -> hc_view (adapter_of f) p' !! x =
      abs_ops (hc_key (adapter_of f)) (hc_value (adapter_of f)) pre (hc_view (adapter_of f) p) !! x.
Proof.
  intros Hext. revert p. induction cs as [|[d o] cs IH]; intros p Hwf Hk E.
  { destruct (Hk p) as [a Ea]. simpl in E. congruence. }
  change (calls_ops ((d, o) :: cs)) with (src_ops d o ++ calls_ops cs).
  rewrite run_calls_cons in E. destruct (is_external d) eqn:He.
  - destruct (Hext d o p He Hwf) as (p1 & E1 & Hwf1 & Hr1 & Hk1).
    rewrite (jbind_ok _ _ _ _ _ E1) in E.
    destruct (IH p1 Hwf1 Hk E) as (pre & o' & post & Hcs & Hpre & Ho' & Hwf' & Hr & Hv).
    exists pre, o', post. rewrite src_ops_external, Hcs by done.
    do 4 (split; [done|]). split; [congruence|].
    intros x Hx. rewrite Hv by done. apply abs_ops_lookup_local. by apply Hk1.
  - pose proof (run_directive_src ext (adapter_of f) d o p He) as Ed.
    destruct (run_ops (adapter_of f) (src_ops d o) p) as [p1 [e1|[]]] eqn:E1.
    + rewrite (jbind_err _ _ _ _ _ Ed) in E. injection E as <- <-.
      destruct (run_ops_error _ _ p p1 e1 Hwf E1)
        as (pre & o' & post & -> & Hpre & Ho' & Hwf' & Hv & Hr).
      exists pre, o', (post ++ calls_ops cs). rewrite <- app_assoc. simpl.
      do 5 (split; [done|]). intros x _. by rewrite Hv.
    + rewrite (jbind_ok _ _ _ _ _ Ed) in E.
      pose proof (run_ops_ok_inv _ _ p p1 Hwf E1) as Hok.
      destruct (run_ops_refines _ _ p Hwf Hok) as (p1' & E1' & Hwf1 & Hv1 & Hr1).
      rewrite E1 in E1'. injection E1' as <-.
      destruct (IH p1 Hwf1 Hk E) as (pre & o' & post & Hcs & Hpre & Ho' & Hwf' & Hr & Hv).
      exists (src_ops d o ++ pre), o', post. rewrite Hcs, <- app_assoc, forallb_app, Hok, Hpre.
      do 4 (split; [done|]). split; [congruence|].
      intros x Hx. by rewrite Hv, Hv1, abs_ops_app.
Qed.

(** C20: the error path.  When an initialised [Snelm] with non-nullish
    options throws on natives its adapter supports, it has performed a
    prefix of the abstract program [snelm_ops options] and stopped at the
    first header operation the adapter rejects: the canonical keys of [K]
    hold what the prefix sets, the request is untouched, and nothing is
    rolled back. *)
Theorem snelm_error_prefix s p p' e :
  ext_frame -> _fameworkLib s = LibClass f -> js_nonnullish (_options s) = true ->
  hc_wf (adapter_of f) p -> snelm ext s p = (p', inl e) ->
  exists pre o post, snelm_ops (_options s) = pre ++ o :: post /\
    forallb (op_ok (adapter_of f)) pre = true /\ op_ok (adapter_of f) o = false /\
    hc_wf (adapter_of f) p' /\ request p' = request p /\
    forall x, x ∈ K -> hc_view (adapter_of f) p' !! x =
      abs_ops (hc_key (adapter_of f)) (hc_value (adapter_of f)) pre (hc_view (adapter_of f) p) !! x.
Proof.
  intros Hext Hl Hn Hwf E. rewrite (snelm_enabled_calls ext s f p Hl Hn) in E.
  apply (run_calls_error return_response _ p p' e Hext Hwf); [|done].
  intros q. by exists (response q).
Qed.
End Refinement.

(** ** Witnesses *)

(** External directives that do nothing: they satisfy every frame. *)
Definition noop_externals : external_directives := {|
  crossDomain _ _ := jret tt; csp _ _ := jret tt; expectCt _ _ := jret tt;
  featurePolicy _ _ := jret tt; frameguard _ _ := jret tt; hsts _ _ := jret tt;
  ieNoOpen _ := jret tt; referrerPolicy _ _ := jret tt; xssProtection _ _ := jret tt;
|}.

Lemma noop_frame f `{!HeaderContract (adapter_of f)} K : ext_frame noop_externals f K.
Proof. intros d o p He Hwf. exists p. by destruct d. Qed.

(** [new Snelm("oak", options)] after [await init()]. *)
Definition oak_snelm (options : js_value) : Snelm := fst (init (new_Snelm "oak" options)).

Lemma directive_runs_iff_witness :
  (DHidePoweredBy, JNull) ∈ enabled (js_obj [("hidePoweredBy", JNull)]) registry <->
  js_get (js_obj [("hidePoweredBy", JNull)]) "hidePoweredBy" = inr JNull /\ JNull <> JNull.
Proof. apply (directive_runs_iff _ DHidePoweredBy). reflexivity. Defined.

Lemma snelm_not_initialized_witness :
  snelm noop_externals (new_Snelm "oak" JUndefined) oak_sample =
  (oak_sample, inl (TypeError NotAConstructor)).
Proof. apply snelm_not_initialized. reflexivity. Defined.

Lemma snelm_null_options_witness :
  snelm noop_externals (oak_snelm JNull) oak_sample = (oak_sample, inl (TypeError ReadOfNullish)).
Proof. apply (snelm_null_options _ _ FOak); reflexivity. Defined.

Lemma init_reject_witness :
  init (new_Snelm "express" JUndefined) =
  (new_Snelm "express" JUndefined, inl (ModuleNotFound "./frameworks/express.ts")).
Proof. apply init_reject. reflexivity. Defined.

Lemma init_idempotent_witness :
  init (oak_snelm JUndefined) = (oak_snelm JUndefined, inr tt).
Proof. apply (init_idempotent (new_Snelm "oak" JUndefined)). reflexivity. Defined.

Lemma snelm_refines_witness :
  exists p', snelm noop_externals (oak_snelm JUndefined) oak_sample = (p', inr (response p')) /\
    hc_wf (adapter_of FOak) p' /\ request p' = request oak_sample /\
    forall x, x ∈ ["x-powered-by"] -> hc_view (adapter_of FOak) p' !! x =
      abs_ops (hc_key (adapter_of FOak)) (hc_value (adapter_of FOak))
        (snelm_ops (_options (oak_snelm JUndefined))) (hc_view (adapter_of FOak) oak_sample) !! x.
Proof.
  apply (snelm_refines noop_externals FOak ["x-powered-by"]);
    [apply noop_frame | reflexivity | reflexivity | reflexivity | vm_compute; reflexivity].
Defined.

(** [new Snelm("oak", { hidePoweredBy: { setTo: "a\nb" } })] after
    [await init()]: [X-Powered-By] gets a value [Headers.set] rejects. *)
Definition oak_snelm_bad_value : Snelm :=
  oak_snelm (js_obj [("hidePoweredBy", js_obj [("setTo", JString "a
b")])]).

Lemma snelm_error_prefix_witness :
  exists pre o post, snelm_ops (_options oak_snelm_bad_value) = pre ++ o :: post /\
    forallb (op_ok (adapter_of FOak)) pre = true /\ op_ok (adapter_of FOak) o = false /\
    hc_wf (adapter_of FOak) (fst (snelm noop_externals oak_snelm_bad_value oak_sample)) /\
    request (fst (snelm noop_externals oak_snelm_bad_value oak_sample)) = request oak_sample /\
    forall x, x ∈ src_keys -> hc_view (adapter_of FOak) (fst (snelm noop_externals oak_snelm_bad_value oak_sample)) !! x =
      abs_ops (hc_key (adapter_of FOak)) (hc_value (adapter_of FOak)) pre
        (hc_view (adapter_of FOak) oak_sample) !! x.
Proof.
  apply (snelm_error_prefix noop_externals FOak src_keys oak_snelm_bad_value oak_sample _
           (TypeError InvalidHeaderValue));
    [apply noop_frame | reflexivity | reflexivity | reflexivity | vm_compute; reflexivity].
Defined.
