(* ===== verification/Lifecycle.v ===== *)
(** * Interleavings of [init] and [snelm] (src/mod.ts, lines 25-71)

    [init] is [async]: a call reads [this._frameworkName], starts
    [import(`./frameworks/${name}.ts`)] and suspends at [await]; when the
    import settles the call resumes and, on success, runs the two
    assignments of lines 26-27 without a suspension between them.  [snelm]
    is synchronous, so an invocation never interleaves with anything.  A
    program that does not await [init] (or calls it twice) therefore sees
    three kinds of atomic events, in any order the host chooses:

    - [CallInit]: a call of [init] starts its import ([start_init]);
    - [SettleInit i]: the [i]-th pending import settles and its call
      resumes ([resume_init]);
    - [Invoke p]: [snelm] runs on the natives [p] ([Snelm.snelm]).

    [world] is the object with the list of the names whose imports are
    pending; [step] is the transition function of one event and [run] of a
    sequence; [reach] is the set of worlds a program can reach from
    [new Snelm(name, options)].  Resuming a call whose name is the
    object's name is the atomic [init] of Snelm.v ([resume_init_init]).
    The theorems show an invariant of every reachable world, that pending
    imports settle in every order to the object a sequential [init] gives,
    what an invocation issued before the import settles does, and what an
    invocation does in any reachable world. *)

From S2P Require Import Prelude JsValue Interface Adapters Loader Snelm.
Local Open Scope js_scope.

Record world := mkWorld {
  obj : Snelm;
  pending : list string;  (** the names of the imports started and not settled *)
}.

Inductive event :=
  | CallInit
  | SettleInit (i : nat)
  | Invoke (p : adapted).

(** What an event returns to the program. *)
Inductive outcome :=
  | OStarted
  | OInitDone (r : js_error + unit)
  | OInvoked (p : adapted) (r : js_error + native).

(** [new Snelm(name, options)] with no call of [init] yet. *)
Definition initial (name : string) (options : js_value) : world :=
  {| obj := new_Snelm name options; pending := [] |}.

(** [init()] up to its [await]: the specifier is built from the name the
    object has now. *)
Definition start_init (w : world) : world :=
  {| obj := obj w; pending := pending w ++ [_frameworkName (obj w)] |}.

(** The rest of [init()] once [import] of the name settles: on success the
    two assignments, on failure the call's promise rejects and [this] is
    unchanged. *)
Definition resume_init (name : string) (s : Snelm) : Snelm * (js_error + unit) :=
  match import_default name with
  | inr d => ({| _frameworkName := _frameworkName s; _options := _options s;
                 _fameworkLib := lib_of_export d |}, inr tt)
  | inl e => (s, inl e)
  end.

Section Step.
Context (ext : external_directives).

Definition step (w : world) (ev : event) : option (world * outcome) :=
  match ev with
  | CallInit => Some (start_init w, OStarted)
  | SettleInit i =>
      match pending w !! i with
      | None => None
      | Some name =>
          let (s', r) := resume_init name (obj w) in
          Some ({| obj := s'; pending := delete i (pending w) |}, OInitDone r)
      end
  | Invoke p => let (p', r) := snelm ext (obj w) p in Some (w, OInvoked p' r)
  end.

Fixpoint run (w : world) (evs : list event) : option (world * list outcome) :=
  match evs with
  | [] => Some (w, [])
  | ev :: evs' =>
      match step w ev with
      | None => None
      | Some (w1, o) =>
          match run w1 evs' with
          | None => None
          | Some (w2, os) => Some (w2, o :: os)
          end
      end
  end.

Inductive reach (name : string) (options : js_value) : world -> Prop :=
  | reach_initial : reach name options (initial name options)
  | reach_step w ev w' o : reach name options w -> step w ev = Some (w', o) -> reach name options w'.

(** Every order of settlement of the pending imports ends with no import
    pending, in a world satisfying [P]: [settles P w] holds when [w] has
    no pending import and satisfies [P], or when every import that can
    settle next leads to a world that [settles P]. *)
Inductive settles (P : world -> Prop) : world -> Prop :=
  | settles_done w : pending w = [] -> P w -> settles P w
  | settles_step w : pending w <> [] ->
      (exists i w' o, step w (SettleInit i) = Some (w', o)) ->
      (forall i w' o, step w (SettleInit i) = Some (w', o) -> settles P w') -> settles P w.
End Step.

(** The object every pending import settles to: [init] applied once more
    when an import is pending. *)
Definition settled_obj (w : world) : Snelm :=
  match pending w with [] => obj w | _ :: _ => fst (init (obj w)) end.

(** ** Lemmas *)

Lemma resume_init_init s : resume_init (_frameworkName s) s = init s.
Proof.
  unfold resume_init, init, jbind, jlift, jget, jput. simpl.
  by destruct (import_default (_frameworkName s)).
Qed.

Lemma init_name s : _frameworkName (fst (init s)) = _frameworkName s.
Proof.
  unfold init, jbind, jlift, jget, jput. simpl.
  by destruct (import_default (_frameworkName s)).
Qed.

Lemma step_invoke ext w p :
  step ext w (Invoke p) = Some (w, OInvoked (snelm ext (obj w) p).1 (snelm ext (obj w) p).2).
Proof. simpl. by destruct (snelm ext (obj w) p). Qed.

(** A settle step, when every pending name is the object's name: the
    object is what [init] gives, and the pending import is removed. *)
Lemma step_settle ext w i w' o :
  Forall (eq (_frameworkName (obj w))) (pending w) ->
  step ext w (SettleInit i) = Some (w', o) ->
  is_Some (pending w !! i) /\ obj w' = fst (init (obj w)) /\
  pending w' = delete i (pending w) /\ o = OInitDone (snd (init (obj w))).
Proof.
  intros Hf E. simpl in E. destruct (pending w !! i) as [nm|] eqn:Ei; [|done].
  rewrite <- (Forall_lookup_1 _ _ _ _ Hf Ei), resume_init_init in E.
  destruct (init (obj w)) as [s' r] eqn:Einit. injection E as <- <-. simpl.
  eauto.
Qed.

Lemma reach_inv ext name options w :
  reach ext name options w ->
  _frameworkName (obj w) = name /\ _options (obj w) = _options (new_Snelm name options) /\
  Forall (eq name) (pending w) /\
  (_fameworkLib (obj w) = LibUndefined \/
   exists d, import_default name = inr d /\ _fameworkLib (obj w) = lib_of_export d).
Proof.
  induction 1 as [|w [| i | p] w' o _ (Hn & Ho & Hf & Hl) E]; [simpl; auto|..].
  - injection E as <- <-. cbn [obj pending start_init]. rewrite Forall_app, Hn.
    split; [done|]. split; [done|]. split; [split; [done | by constructor] | done].
  - rewrite <- Hn in Hf. destruct (step_settle ext w i w' o Hf E) as (_ & -> & -> & _).
    rewrite Hn in Hf. rewrite init_name.
    destruct (import_default (_frameworkName (obj w))) as [e|d] eqn:Ed.
    + rewrite (init_err _ e Ed). cbn [fst]. do 2 (split; [done|]). split; [by apply Forall_delete | done].
    + rewrite (init_ok _ d Ed). cbn [fst _frameworkName _options _fameworkLib]. rewrite Hn in Ed. 
      do 2 (split; [done|]). split; [by apply Forall_delete | right; eauto].
  - rewrite step_invoke in E. injection E as <- <-. auto.
Qed.

(** From a world whose pending names are its object's name, every order
    of settlement ends in [settled_obj]. *)
Lemma settles_from ext w :
  Forall (eq (_frameworkName (obj w))) (pending w) ->
  settles ext (fun w' => obj w' = settled_obj w) w.
Proof.
  remember (List.length (pending w)) as n eqn:Hn. revert w Hn.
  induction n as [|n IH]; intros w Hn Hf.
  - destruct (pending w) eqn:Ep; [|done]. apply settles_done; [done|]. unfold settled_obj. by rewrite Ep.
  - assert (Hne : pending w <> []) by (intros Ep; by rewrite Ep in Hn).
    apply settles_step; [done| |].
    + destruct (pending w) as [|nm l] eqn:Ep; [done|]. exists 0.
      simpl. rewrite Ep. simpl. destruct (resume_init nm (obj w)). eauto.
    + intros i w' o E. destruct (step_settle ext w i w' o Hf E) as (Hi & Ho & Hp & _).
      assert (Hf' : Forall (eq (_frameworkName (obj w'))) (pending w'))
        by (rewrite Ho, init_name, Hp; by apply Forall_delete).
      assert (Hl : List.length (pending w') = n) by (rewrite Hp, length_delete; [lia | done]).
      assert (Hs : settled_obj w' = settled_obj w).
      { unfold settled_obj at 2. destruct (pending w) eqn:Ep; [done|].
        unfold settled_obj. rewrite Ho. destruct (pending w'); [done|]. apply init_fst_idem. }
      rewrite <- Hs. by apply (IH w').
Qed.

(** ** Theorems *)

(** C24: in every world reachable from [new Snelm(name, options)] by any
    interleaving of [init] calls, settlements and invocations, the name and
    options are those of the constructor, every pending import is of that
    name, and the library is [undefined] or the default export of the
    module the name resolves to. *)
Theorem reach_invariant ext name options w :
  reach ext name options w ->
  _frameworkName (obj w) = name /\ _options (obj w) = _options (new_Snelm name options) /\
  Forall (eq name) (pending w) /\
  (_fameworkLib (obj w) = LibUndefined \/
   exists d, import_default name = inr d /\ _fameworkLib (obj w) = lib_of_export d).
Proof. exact (reach_inv ext name options w). Qed.

(** C25: liveness.  From every reachable world, every order in which the
    pending imports settle ends, after as many settlements as there are
    pending imports, with none pending and the object a sequential [init]
    gives ([settled_obj]); a settlement is possible while one is pending. *)
Theorem pending_inits_settle ext name options w :
  reach ext name options w -> settles ext (fun w' => obj w' = settled_obj w) w.
Proof.
  intros Hr. destruct (reach_inv ext name options w Hr) as (Hn & _ & Hf & _).
  apply settles_from. by rewrite Hn.
Qed.

(** C26: an invocation issued after [init()] is called but before its
    import settles throws "not a constructor" and leaves the natives as
    they were (the specification asks for [NotInitialized]); once the
    import has settled, an invocation runs on the initialised object. *)
Theorem invoke_before_settle ext name options d p q :
  import_default name = inr d ->
  run ext (initial name options) [CallInit; Invoke p; SettleInit 0; Invoke q] =
  Some ({| obj := fst (init (new_Snelm name options)); pending := [] |},
        [OStarted; OInvoked p (inl (TypeError NotAConstructor)); OInitDone (inr tt);
         OInvoked (snelm ext (fst (init (new_Snelm name options))) q).1
                  (snelm ext (fst (init (new_Snelm name options))) q).2]).
Proof.
  intros Hd. cbn [run step start_init initial obj pending app lookup list_lookup].
  rewrite snelm_undefined_lib by done.
  change (pending (start_init (initial name options)) !! 0)
    with (Some (_frameworkName (new_Snelm name options))).
  change (obj (start_init (initial name options))) with (new_Snelm name options).
  cbn iota beta. rewrite resume_init_init, (init_ok (new_Snelm name options) d Hd). cbn iota beta.
  destruct (snelm ext _ q). reflexivity.
Qed.

(** C27: in every reachable world an invocation changes neither the
    object nor the pending imports, and either throws a [TypeError] before
    touching the natives or runs the adapter class the name resolves to. *)
Theorem reach_invoke_safe ext name options w p :
  reach ext name options w ->
  step ext w (Invoke p) = Some (w, OInvoked (snelm ext (obj w) p).1 (snelm ext (obj w) p).2) /\
  ((exists e, snelm ext (obj w) p = (p, inl (TypeError e))) \/
   (exists f, import_default name = inr (ExportAdapter f) /\ _fameworkLib (obj w) = LibClass f)).
Proof.
  intros Hr. split; [apply step_invoke|]. apply lib_snelm_safe.
  apply (reach_inv ext name options w Hr).
Qed.

(** ** Witnesses *)

(** [new Snelm("oak")] with one call of [init] pending. *)
Definition oak_pending : world := start_init (initial "oak" JUndefined).

Lemma reach_oak_pending ext : reach ext "oak" JUndefined oak_pending.
Proof. apply (reach_step _ _ _ (initial "oak" JUndefined) CallInit _ OStarted); [constructor | reflexivity]. Qed.

Lemma reach_invariant_witness :
  _frameworkName (obj oak_pending) = "oak" /\
  _options (obj oak_pending) = _options (new_Snelm "oak" JUndefined) /\
  Forall (eq "oak") (pending oak_pending) /\
  (_fameworkLib (obj oak_pending) = LibUndefined \/
   exists d, import_default "oak" = inr d /\ _fameworkLib (obj oak_pending) = lib_of_export d).
Proof. apply (reach_invariant noop_externals). apply reach_oak_pending. Defined.

Lemma pending_inits_settle_witness :
  settles noop_externals (fun w' => obj w' = settled_obj oak_pending) oak_pending.
Proof. apply (pending_inits_settle noop_externals "oak" JUndefined). apply reach_oak_pending. Defined.

Lemma invoke_before_settle_witness :
  run noop_externals (initial "oak" JUndefined)
      [CallInit; Invoke oak_sample; SettleInit 0; Invoke oak_sample] =
  Some ({| obj := fst (init (new_Snelm "oak" JUndefined)); pending := [] |},
        [OStarted; OInvoked oak_sample (inl (TypeError NotAConstructor)); OInitDone (inr tt);
         OInvoked (snelm noop_externals (fst (init (new_Snelm "oak" JUndefined))) oak_sample).1
                  (snelm noop_externals (fst (init (new_Snelm "oak" JUndefined))) oak_sample).2]).
Proof. apply (invoke_before_settle _ _ _ (ExportAdapter FOak)). reflexivity. Defined.

Lemma reach_invoke_safe_witness :
  step noop_externals oak_pending (Invoke oak_sample) =
    Some (oak_pending, OInvoked (snelm noop_externals (obj oak_pending) oak_sample).1
                                (snelm noop_externals (obj oak_pending) oak_sample).2) /\
  ((exists e, snelm noop_externals (obj oak_pending) oak_sample = (oak_sample, inl (TypeError e))) \/
   (exists f, import_default "oak" = inr (ExportAdapter f) /\ _fameworkLib (obj oak_pending) = LibClass f)).
Proof. apply (reach_invoke_safe noop_externals "oak" JUndefined). apply reach_oak_pending. Defined.
