(* ===== verification/Scenarios.v ===== *)
(** * End-to-end scenarios

    The examples of the specification (section 8), stated on the whole
    program: [new Snelm("oak", options)], [await init()], then
    [snelm(request, response)] on oak's natives.  The general statements
    quantify over the directives outside the repository under the frame
    hypothesis [ext_frame] on the three header names the repository's
    directives write ([src_keys]); the witnesses run them with directives
    that do nothing ([noop_externals]).  The last theorem runs snelm on
    pogo's own Response with any configuration. *)

From S2P Require Import Prelude JsValue WebHeaders Interface Adapters Directives Loader Snelm.

Ltac canon_keys :=
  change (lower "X-DNS-Prefetch-Control") with "x-dns-prefetch-control" in *;
  change (lower "X-Content-Type-Options") with "x-content-type-options" in *;
  change (lower "X-Powered-By") with "x-powered-by" in *.

(** The configurations of the specification's examples. *)
Definition hide_null_options : js_value := js_obj [("hidePoweredBy", JNull)].
Definition php_options : js_value := js_obj [("hidePoweredBy", js_obj [("setTo", JString "PHP 4.2.0")])].
Definition allow_options : js_value := js_obj [("dnsPrefetchControl", js_obj [("allow", JBool true)])].

(** Running [snelm] on oak with the given options: the response headers at
    the keys of [src_keys] are those of the abstract program. *)
Lemma oak_snelm_view ext options p :
  ext_frame ext FOak src_keys -> Oak.oak_wfb p = true ->
  js_nonnullish (_options (oak_snelm options)) = true ->
  forallb (op_ok (adapter_of FOak)) (snelm_ops (_options (oak_snelm options))) = true ->
  exists p', snelm ext (oak_snelm options) p = (p', inr (response p')) /\
    request p' = request p /\
    forall x, x ∈ src_keys -> Oak.oak_view (response p') !! x =
      abs_ops lower normalize_header_value (snelm_ops (_options (oak_snelm options)))
        (Oak.oak_view (response p)) !! x.
Proof.
  intros Hext Hwf Hn Hok.
  destruct (snelm_abstract_program ext FOak src_keys (oak_snelm options) p Hext eq_refl Hn Hwf Hok)
    as (p' & E & _ & Hr & Hk).
  exists p'. auto.
Qed.

(** C3: [{ hidePoweredBy: null }] disables hide-powered-by: an
    [X-Powered-By: Express] header is still there after the invocation.
    (The specification's example expects it removed.) *)
Theorem hidePoweredBy_null_keeps_header ext p :
  ext_frame ext FOak src_keys -> Oak.oak_wfb p = true ->
  exists p', snelm ext (oak_snelm hide_null_options) p = (p', inr (response p')) /\
    Oak.oak_view (response p') !! "x-powered-by" = Oak.oak_view (response p) !! "x-powered-by".
Proof.
  intros Hext Hwf.
  destruct (oak_snelm_view ext hide_null_options p Hext Hwf eq_refl eq_refl)
    as (p' & E & _ & Hk).
  exists p'. split; [done|]. rewrite Hk by (unfold src_keys; set_solver).
  vm_compute snelm_ops. simpl. canon_keys. by simplify_map_eq.
Qed.

(** C4: [{ hidePoweredBy: { setTo: "PHP 4.2.0" } }] sets
    [X-Powered-By: PHP 4.2.0]. *)
Theorem hidePoweredBy_setTo_header ext p :
  ext_frame ext FOak src_keys -> Oak.oak_wfb p = true ->
  exists p', snelm ext (oak_snelm php_options) p =
               (p', inr (response p')) /\
    Oak.oak_view (response p') !! "x-powered-by" = Some "PHP 4.2.0".
Proof.
  intros Hext Hwf.
  destruct (oak_snelm_view ext php_options
              p Hext Hwf eq_refl eq_refl) as (p' & E & _ & Hk).
  exists p'. split; [done|]. rewrite Hk by (unfold src_keys; set_solver).
  vm_compute snelm_ops. simpl. canon_keys. by simplify_map_eq.
Qed.

(** C5: [{ dnsPrefetchControl: { allow: true } }] sets
    [X-DNS-Prefetch-Control: on]; with the default options it is [off],
    [X-Content-Type-Options] is [nosniff] and [X-Powered-By] is removed. *)
Theorem default_and_allow_headers ext p :
  ext_frame ext FOak src_keys -> Oak.oak_wfb p = true ->
  (exists p', snelm ext (oak_snelm allow_options) p =
                (p', inr (response p')) /\
     Oak.oak_view (response p') !! "x-dns-prefetch-control" = Some "on") /\
  (exists p', snelm ext (oak_snelm JUndefined) p = (p', inr (response p')) /\
     Oak.oak_view (response p') !! "x-dns-prefetch-control" = Some "off" /\
     Oak.oak_view (response p') !! "x-content-type-options" = Some "nosniff" /\
     Oak.oak_view (response p') !! "x-powered-by" = None).
Proof.
  intros Hext Hwf. split.
  - destruct (oak_snelm_view ext allow_options
                p Hext Hwf eq_refl eq_refl) as (p' & E & _ & Hk).
    exists p'. split; [done|]. rewrite Hk by (unfold src_keys; set_solver).
    vm_compute snelm_ops. simpl. canon_keys. by simplify_map_eq.
  - destruct (oak_snelm_view ext JUndefined p Hext Hwf eq_refl eq_refl) as (p' & E & _ & Hk).
    exists p'. split; [done|]. rewrite !Hk by (unfold src_keys; set_solver).
    vm_compute snelm_ops. simpl. canon_keys. by simplify_map_eq.
Qed.

Lemma hidePoweredBy_null_keeps_header_witness :
  exists p', snelm noop_externals (oak_snelm hide_null_options) oak_sample =
               (p', inr (response p')) /\
    Oak.oak_view (response p') !! "x-powered-by" = Oak.oak_view (response oak_sample) !! "x-powered-by".
Proof. apply hidePoweredBy_null_keeps_header; [apply noop_frame | reflexivity]. Defined.

Lemma hidePoweredBy_setTo_header_witness :
  exists p', snelm noop_externals
               (oak_snelm php_options) oak_sample =
             (p', inr (response p')) /\
    Oak.oak_view (response p') !! "x-powered-by" = Some "PHP 4.2.0".
Proof. apply hidePoweredBy_setTo_header; [apply noop_frame | reflexivity]. Defined.

Lemma default_and_allow_headers_witness :
  (exists p', snelm noop_externals
                (oak_snelm allow_options) oak_sample =
              (p', inr (response p')) /\
     Oak.oak_view (response p') !! "x-dns-prefetch-control" = Some "on") /\
  (exists p', snelm noop_externals (oak_snelm JUndefined) oak_sample = (p', inr (response p')) /\
     Oak.oak_view (response p') !! "x-dns-prefetch-control" = Some "off" /\
     Oak.oak_view (response p') !! "x-content-type-options" = Some "nosniff" /\
     Oak.oak_view (response p') !! "x-powered-by" = None).
Proof. apply default_and_allow_headers; [apply noop_frame | reflexivity]. Defined.

(** ** pogo's own Response end to end *)

(** [new Snelm("pogo", options)] after [await init()]. *)
Definition pogo_snelm (options : js_value) : Snelm := fst (init (new_Snelm "pogo" options)).

(** C29: on pogo's own Response, no invocation, whatever the options and
    whether it succeeds or throws, removes a header from the header list:
    each header present before is present after.  The directives outside
    the repository are assumed to keep that property themselves. *)
Theorem pogo_never_removes_header ext options x :
  (forall d o, is_external d = true -> preserves (pogo_keeps x) (run_directive ext (adapter_of FPogo) d o)) ->
  preserves (pogo_keeps x) (snelm ext (pogo_snelm options)).
Proof.
  intros Hext. apply (snelm_preserves _ _ _ FPogo); [reflexivity|].
  intros d o p Hp. destruct (is_external d) eqn:He; [by apply Hext|].
  rewrite run_directive_src by done. by apply pogo_run_ops_keeps.
Qed.

Lemma pogo_never_removes_header_witness :
  pogo_keeps "x-powered-by" (fst (snelm noop_externals (pogo_snelm JUndefined) pogo_sample)).
Proof.
  apply (pogo_never_removes_header noop_externals JUndefined "x-powered-by").
  - intros d o He p Hp. destruct d; try discriminate; exact Hp.
  - split; [reflexivity|]. eexists. split; [reflexivity|]. vm_compute. eauto.
Defined.
